(** * Pull-request "Database changes" hook: model and properties

    The repository holds two versions of one GitHub-script hook:
    - [src/unnamed/part_000]                 (flat list of migration links),
    - [src/.github/scripts/pr-db-changes.js] (do/undo aware summary).

    Both are embedded below.  JavaScript strings are sequences of UTF-16
    code units, so a string is a [list N]; every [String.prototype] method
    the script calls is written out on that representation.  The calls to
    the GitHub client are threaded through a small state-and-exception
    monad whose handler is a parameter, and which logs every request. *)

From Stdlib Require Import String Ascii.
From Stdlib Require Import List NArith ZArith Bool Arith Lia.
Import ListNotations.

(** ** JavaScript strings *)

Definition str := list N.

(** An ASCII literal of the script. *)
Definition lit (s : string) : str := map N_of_ascii (list_ascii_of_string s).

Fixpoint str_eqb (a b : str) : bool :=
  match a, b with
  | [], [] => true
  | x :: a', y :: b' => N.eqb x y && str_eqb a' b'
  | _, _ => false
  end.

(** [s.startsWith(p)] *)
Fixpoint startsWith (s p : str) {struct p} : bool :=
  match p with
  | [] => true
  | x :: p' =>
      match s with
      | [] => false
      | y :: s' => N.eqb x y && startsWith s' p'
      end
  end.

(** [s.indexOf(p)], as an option instead of -1. *)
Fixpoint indexOf (s p : str) : option nat :=
  if startsWith s p then Some 0
  else match s with
       | [] => None
       | _ :: s' => option_map S (indexOf s' p)
       end.

(** [s.split(sep)] for a one-unit separator: never the empty array. *)
Fixpoint split (sep : N) (s : str) : list str :=
  match s with
  | [] => [[]]
  | c :: s' =>
      if N.eqb c sep then [] :: split sep s'
      else match split sep s' with
           | [] => [[c]]
           | w :: ws => (c :: w) :: ws
           end
  end.

(** [a.join(sep)] *)
Fixpoint join (sep : str) (l : list str) : str :=
  match l with
  | [] => []
  | [a] => a
  | a :: l' => a ++ sep ++ join sep l'
  end.

(** [a.filter(Boolean)] on an array of strings: the empty string is falsy. *)
Definition filterBoolean (l : list str) : list str :=
  filter (fun s => match s with [] => false | _ => true end) l.

(** WhiteSpace and LineTerminator code units, the set [trimEnd] strips. *)
Definition isWhiteSpace (c : N) : bool :=
  ((9 <=? c) && (c <=? 13) || (c =? 32) || (c =? 160) || (c =? 5760)
   || (8192 <=? c) && (c <=? 8202) || (c =? 8232) || (c =? 8233)
   || (c =? 8239) || (c =? 8287) || (c =? 12288) || (c =? 65279))%N.

(** [s.trimEnd()] *)
Definition trimEnd (s : str) : str :=
  fold_right
    (fun c acc =>
       match acc with
       | [] => if isWhiteSpace c then [] else [c]
       | _ => c :: acc
       end) [] s.

(** [String(n)] for a non-negative integer. *)
Fixpoint digitsOf (d : Decimal.uint) : str :=
  match d with
  | Decimal.Nil => []
  | Decimal.D0 d' => 48%N :: digitsOf d'
  | Decimal.D1 d' => 49%N :: digitsOf d'
  | Decimal.D2 d' => 50%N :: digitsOf d'
  | Decimal.D3 d' => 51%N :: digitsOf d'
  | Decimal.D4 d' => 52%N :: digitsOf d'
  | Decimal.D5 d' => 53%N :: digitsOf d'
  | Decimal.D6 d' => 54%N :: digitsOf d'
  | Decimal.D7 d' => 55%N :: digitsOf d'
  | Decimal.D8 d' => 56%N :: digitsOf d'
  | Decimal.D9 d' => 57%N :: digitsOf d'
  end.

Definition numberToString (n : nat) : str := digitsOf (Nat.to_uint n).

(** ** Data model (spec section 3) *)

(** One record of [pulls.listFiles]. *)
Record FileChange := mkFile {
  filename : str;
  status : str;
  patch : option str
}.

(** An entry of [pr.labels]: a plain name or an object with a [name]. *)
Inductive label :=
| LabelString (l : str)
| LabelObject (name : str).

Record PullRequest := mkPR {
  number : Z;
  body : option str;
  head_sha : str;
  labels : list label
}.

Record Context := mkContext {
  owner : str;
  repo : str;
  pull_request : PullRequest
}.

(** ** Constants shared by both versions (lines 16-25) *)

Definition targetPrefix : str := lit "database/rentec/schema/migrations/".
Definition START : str := lit "<!-- DATABASE_CHANGES_START -->".
Definition END_ : str := lit "<!-- DATABASE_CHANGES_END -->".
Definition labelName : str := lit "Database changes".
Definition heading : str := lit "### " ++ labelName.
Definition added : str := lit "added".
Definition NL : N := 10%N.

(** ** Change detector (line 17 of both versions) *)

Definition isAddedMigration (f : FileChange) : bool :=
  str_eqb (status f) added && startsWith (filename f) targetPrefix.

Definition addedMigrations (files : list FileChange) : list FileChange :=
  filter isAddedMigration files.

(** [f.filename.split("/").pop()] *)
Definition basename (path : str) : str := last (split 47%N path) [].

(** ** Body reconciler (lines 41-44 of part_000, 30-33 of pr-db-changes.js) *)

(** [body.replace(new RegExp(START + "[\\s\\S]*?" + END, "g"), "")] for
    literal markers [op] and [cl].  The engine tries every position from
    the left; at a position where [op] begins, the lazy [[\s\S]*?] stops at
    the first [cl] that follows it, the match is dropped and the search
    resumes right after it.  [skip] counts the units of the current match
    that are still to be dropped. *)
Fixpoint replaceFrom (op cl : str) (skip : nat) (s : str) : str :=
  match s with
  | [] => []
  | c :: s' =>
      match skip with
      | S k => replaceFrom op cl k s'
      | O =>
          if startsWith s op then
            match indexOf (skipn (length op) s) cl with
            | Some j => replaceFrom op cl (length op + j + length cl - 1) s'
            | None => c :: replaceFrom op cl 0 s'
            end
          else c :: replaceFrom op cl 0 s'
      end
  end.

Definition removeSections (s : str) : str := replaceFrom START END_ 0 s.

(** The number of matches of the same regular expression: the number of
    delimited sections a body holds. *)
Fixpoint countFrom (op cl : str) (skip : nat) (s : str) : nat :=
  match s with
  | [] => 0
  | c :: s' =>
      match skip with
      | S k => countFrom op cl k s'
      | O =>
          if startsWith s op then
            match indexOf (skipn (length op) s) cl with
            | Some j => S (countFrom op cl (length op + j + length cl - 1) s')
            | None => countFrom op cl 0 s'
            end
          else countFrom op cl 0 s'
      end
  end.

Definition countSections (s : str) : nat := countFrom START END_ 0 s.

(** [pr.body || ""] *)
Definition oldBody (pr : PullRequest) : str :=
  match body pr with Some b => b | None => [] end.

Definition bodySansDbChanges (old : str) : str := trimEnd (removeSections old).

(** [[bodySansDbChanges, section].filter(Boolean).join("\n\n")] *)
Definition newBody (old section : str) : str :=
  join [NL; NL] (filterBoolean [bodySansDbChanges old; section]).

(** [prLabels.includes(labelName)] after the [map] of line 53 / 42. *)
Definition labelText (l : label) : str :=
  match l with LabelString s => s | LabelObject n => n end.

Definition hasLabel (pr : PullRequest) : bool :=
  existsb (str_eqb labelName) (map labelText (labels pr)).

(** ** Exceptions *)

(** What the script can see thrown: a [TypeError] of the language, or the
    client's request error, whose [status] may be missing. *)
Inductive exn :=
| TypeError
| RequestError (st : option Z).

Definition statusOf (e : exn) : option Z :=
  match e with TypeError => None | RequestError st => st end.

(** [e.status === 404] *)
Definition is404 (e : exn) : bool :=
  match statusOf e with Some st => Z.eqb st 404 | None => false end.

Inductive completion (A : Type) :=
| Normal (a : A)
| Throw (e : exn).
Arguments Normal {A} a.
Arguments Throw {A} e.

(** ** The GitHub client

    Every request of the script carries the same [owner], [repo] and pull
    request number; they are left out of the requests below. *)
Inductive request : Type -> Type :=
| ListFiles : request (list FileChange)
| PullsUpdate (newBody : str) : request unit
| GetLabel (name : str) : request unit
| CreateLabel (name color description : str) : request unit
| AddLabels (names : list str) : request unit
| RemoveLabel (name : str) : request unit.

Inductive call := Call (A : Type) (r : request A).
Arguments Call {A} r.

(** Requests that change the remote state. *)
Definition isWrite (c : call) : bool :=
  match c with
  | Call ListFiles => false
  | Call (GetLabel _) => false
  | Call _ => true
  end.

Section Monad.

(** The remote side: any state [W] and any way of answering requests. *)
Variable W : Type.
Variable github : forall A, request A -> W -> completion A * W.

(** Computations of the script: remote state and request log in,
    completion, remote state and request log out. *)
Definition M (A : Type) : Type :=
  W * list call -> completion A * (W * list call).

Definition ret {A} (a : A) : M A := fun s => (Normal a, s).

Definition throw {A} (e : exn) : M A := fun s => (Throw e, s).

Definition bind {A B} (m : M A) (k : A -> M B) : M B :=
  fun s =>
    match m s with
    | (Normal a, s') => k a s'
    | (Throw e, s') => (Throw e, s')
    end.

(** [try { m } catch (e) { h e }] *)
Definition tryCatch {A} (m : M A) (h : exn -> M A) : M A :=
  fun s =>
    match m s with
    | (Normal a, s') => (Normal a, s')
    | (Throw e, s') => h e s'
    end.

(** [await github...(r)] *)
Definition await {A} (r : request A) : M A :=
  fun s =>
    let (res, w') := github _ r (fst s) in
    (res, (w', snd s ++ [Call r])).

Definition liftC {A} (c : completion A) : M A :=
  match c with Normal a => ret a | Throw e => throw e end.

End Monad.

Arguments ret {W A} a.
Arguments throw {W A} e.
Arguments bind {W A B} m k.
Arguments tryCatch {W A} m h.
Arguments await {W} github {A} r.
Arguments liftC {W A} c.

Declare Scope script_scope.
Delimit Scope script_scope with script.
Notation "'let*' x ':=' m 'in' k" := (bind m (fun x => k))
  (at level 10, x name, m at level 100, k at level 200) : script_scope.
Local Open Scope script_scope.

Section Labels.

Variable W : Type.
Variable github : forall A, request A -> W -> completion A * W.

(** [ensureLabelExists] (lines 77-93 of part_000, 120-138 of
    pr-db-changes.js). *)
Definition ensureLabelExists : M W unit :=
  tryCatch
    (await github (GetLabel labelName))
    (fun e =>
       if is404 e then
         await github (CreateLabel labelName (lit "1778d3")
                         (lit "PR introduces database migration files"))
       else throw e).

(** The label region (lines 51-75 of part_000, 40-64 of
    pr-db-changes.js). *)
Definition reconcileLabels (addedMigrations : list FileChange)
    (pr : PullRequest) : M W unit :=
  if 0 <? length addedMigrations then
    if negb (hasLabel pr) then
      let* _ := ensureLabelExists in
      await github (AddLabels [labelName])
    else ret tt
  else if hasLabel pr then
    tryCatch
      (await github (RemoveLabel labelName))
      (fun e => if negb (is404 e) then throw e else ret tt)
  else ret tt.

(** [if (oldBody !== newBody) await github.rest.pulls.update(...)] *)
Definition updateBody (old new : str) : M W unit :=
  if negb (str_eqb old new) then await github (PullsUpdate new) else ret tt.

End Labels.

Arguments ensureLabelExists {W} github.
Arguments reconcileLabels {W} github addedMigrations pr.
Arguments updateBody {W} github old new.

(** ** Version 1: flat list (src/unnamed/part_000) *)

Module FlatList.

(** Line 30. *)
Definition url (ctx : Context) (f : FileChange) : str :=
  lit "https://github.com/" ++ owner ctx ++ lit "/" ++ repo ctx
    ++ lit "/blob/" ++ head_sha (pull_request ctx) ++ lit "/" ++ filename f.

(** Lines 27-33. *)
Definition lines (ctx : Context) (addedMigrations : list FileChange) : str :=
  join [NL]
    (map (fun f =>
            lit "- [" ++ basename (filename f) ++ lit "](" ++ url ctx f
              ++ lit ")")
       addedMigrations).

(** Lines 35-38: [lines.length > 0 ? ... : ""]. *)
Definition section (ctx : Context) (addedMigrations : list FileChange) : str :=
  let lines := lines ctx addedMigrations in
  if 0 <? length lines then
    START ++ [NL] ++ heading ++ [NL; NL]
      ++ lit "This PR adds the following migration files:" ++ [NL; NL]
      ++ lines ++ [NL; NL] ++ END_
  else [].

(** Lines 41-44. *)
Definition computedBody (ctx : Context) (addedMigrations : list FileChange)
  : str :=
  newBody (oldBody (pull_request ctx)) (section ctx addedMigrations).

Section Run.

Variable W : Type.
Variable github : forall A, request A -> W -> completion A * W.

Definition run (ctx : Context) : M W unit :=
  let pr := pull_request ctx in
  let* files := await github ListFiles in
  let addedMigrations := addedMigrations files in
  let* _ := updateBody github (oldBody pr)
              (computedBody ctx addedMigrations) in
  reconcileLabels github addedMigrations pr.

End Run.

Arguments run {W} github ctx.

End FlatList.

(** ** Regular expressions of the script

    [regex.test(name)] only asks whether some match exists, so a regular
    expression is modelled by its language and decided with derivatives. *)

Inductive RegExp :=
| Fail_
| Eps
| Class (p : N -> bool)
| Seq (r1 r2 : RegExp)
| Alt (r1 r2 : RegExp)
| Star (r : RegExp).

Fixpoint nullable (r : RegExp) : bool :=
  match r with
  | Fail_ => false
  | Eps => true
  | Class _ => false
  | Seq r1 r2 => nullable r1 && nullable r2
  | Alt r1 r2 => nullable r1 || nullable r2
  | Star _ => true
  end.

Fixpoint deriv (c : N) (r : RegExp) : RegExp :=
  match r with
  | Fail_ => Fail_
  | Eps => Fail_
  | Class p => if p c then Eps else Fail_
  | Seq r1 r2 =>
      if nullable r1 then Alt (Seq (deriv c r1) r2) (deriv c r2)
      else Seq (deriv c r1) r2
  | Alt r1 r2 => Alt (deriv c r1) (deriv c r2)
  | Star r1 => Seq (deriv c r1) (Star r1)
  end.

(** [/^r$/.test(s)] *)
Definition test (r : RegExp) (s : str) : bool :=
  nullable (fold_left (fun r c => deriv c r) s r).

(** [\d] *)
Definition digit : RegExp := Class (fun c => (48 <=? c) && (c <=? 57))%N.

(** [.] without the [s] flag: anything but a line terminator. *)
Definition dot : RegExp :=
  Class (fun c => negb ((c =? 10) || (c =? 13) || (c =? 8232) || (c =? 8233)))%N.

(** [[\s\S]] *)
Definition any : RegExp := Class (fun _ => true).

Definition plus (r : RegExp) : RegExp := Seq r (Star r).
Definition opt (r : RegExp) : RegExp := Alt r Eps.

Fixpoint word (s : str) : RegExp :=
  match s with
  | [] => Eps
  | c :: s' => Seq (Class (N.eqb c)) (word s')
  end.

(** ** Plain objects used as maps

    Own properties in insertion order.  (Integer-like keys are listed first
    by [Object.keys]; the only use below sorts the keys.) *)

Definition obj (V : Type) : Type := list (str * V).

Fixpoint get {V} (k : str) (o : obj V) : option V :=
  match o with
  | [] => None
  | (k', v) :: o' => if str_eqb k' k then Some v else get k o'
  end.

Fixpoint set {V} (k : str) (v : V) (o : obj V) : obj V :=
  match o with
  | [] => [(k, v)]
  | (k', v') :: o' =>
      if str_eqb k' k then (k', v) :: o' else (k', v') :: set k v o'
  end.

Definition keys {V} (o : obj V) : list str := map fst o.

(** [a < b] on strings: code unit by code unit. *)
Fixpoint str_ltb (a b : str) : bool :=
  match a, b with
  | _, [] => false
  | [], _ :: _ => true
  | x :: a', y :: b' => (x <? y)%N || (x =? y)%N && str_ltb a' b'
  end.

Fixpoint insertSorted (k : str) (l : list str) : list str :=
  match l with
  | [] => [k]
  | k' :: l' => if str_ltb k k' then k :: l else k' :: insertSorted k l'
  end.

(** [a.sort()] on strings. *)
Definition sort (l : list str) : list str := fold_right insertSorted [] l.

(** ** Version 2: do/undo aware (src/.github/scripts/pr-db-changes.js) *)

Module DoUndo.

(** Lines 112-114. *)
Definition fileUrl (ctx : Context) (f : FileChange) : str :=
  lit "https://github.com/" ++ owner ctx ++ lit "/" ++ repo ctx
    ++ lit "/blob/" ++ head_sha (pull_request ctx) ++ lit "/" ++ filename f.

(** Lines 116-118, for a file that exists. *)
Definition fileLink (ctx : Context) (f : FileChange) : str :=
  lit "[" ++ basename (filename f) ++ lit "](" ++ fileUrl ctx f ++ lit ")".

(** Line 69: [/^\d+.(?:un)?do.[\s\S]*?.sql$/]; the dots are not
    escaped. *)
Definition regex : RegExp :=
  Seq (plus digit)
    (Seq dot
       (Seq (opt (word (lit "un")))
          (Seq (word (lit "do"))
             (Seq dot (Seq (Star any) (Seq dot (word (lit "sql")))))))).

(** Line 77, [group[key] = f] on a plain object: the key "__proto__"
    reaches the setter of [Object.prototype], which makes [f] the prototype
    of the group and stores no own entry; every other key stores an own
    entry.  The prototype is then a file record, which has neither a "do"
    nor an "undo" property, so the reads of line 91 find exactly what the
    own entries hold. *)
Definition assign (key : str) (f : FileChange) (group : obj FileChange)
  : obj FileChange :=
  if str_eqb key (lit "__proto__") then group else set key f group.

(** Lines 75-77: [const [timestamp, doOrUndo] = name.split(".")], then
    the two assignments.  A missing second part is [undefined], which as
    a property key is the string "undefined". *)
Definition addPair (pairs : obj (obj FileChange)) (f : FileChange)
  : obj (obj FileChange) :=
  let name := basename (filename f) in
  if test regex name then
    let parts := split 46%N name in
    let timestamp := nth 0 parts [] in
    let doOrUndo :=
      match parts with
      | _ :: r :: _ => r
      | _ => lit "undefined"
      end in
    let group := match get timestamp pairs with Some g => g | None => [] end in
    set timestamp (assign doOrUndo f group) pairs
  else pairs.

(** Lines 68-79. *)
Definition pairsOf (files : list FileChange) : obj (obj FileChange) :=
  fold_left addPair files [].

(** Line 81. *)
Definition timestamps (files : list FileChange) : list str :=
  sort (keys (pairsOf files)).

(** Line 98. *)
Definition isAddedLine (line : str) : bool :=
  startsWith line (lit "+") && negb (startsWith line (lit "+++")).

Definition doLineCount (doFile : FileChange) : nat :=
  let patch := match patch doFile with Some p => p | None => [] end in
  length (filter isAddedLine (split NL patch)).

(** The two pictographs of line 101, as the code units the file holds. *)
Definition pointDown : str := [240; 376; 8216; 8225]%N.
Definition pointRight : str := [240; 376; 8216; 8240]%N.

(** Lines 91-102.  Reading [doFile.patch] of a missing "do" file, or
    [f.filename] of a missing "undo" file in [fileLink], throws a
    TypeError.  ([console.log] is left out.) *)
Definition formatLoneMigration (ctx : Context) (group : obj FileChange)
  : completion str :=
  match get (lit "do") group with
  | None => Throw TypeError
  | Some doFile =>
      let doUrl :=
        fileUrl ctx doFile ++ lit "#L1-L"
          ++ numberToString (doLineCount doFile + 1) in
      match get (lit "undo") group with
      | None => Throw TypeError
      | Some undoFile =>
          Normal (lit "Do " ++ pointDown ++ lit " Undo " ++ pointRight
                    ++ lit " " ++ fileLink ctx undoFile ++ [NL] ++ doUrl)
      end
  end.

(** Lines 104-110: reads the detected files, not the pairs. *)
Definition formatMultipleMigrations (ctx : Context)
    (addedMigrations : list FileChange) : str :=
  let lines :=
    join [NL] (map (fun f => lit "- " ++ fileLink ctx f) addedMigrations) in
  if 0 <? length lines then
    lit "This PR adds the following migration files:" ++ [NL; NL] ++ lines
  else [].

(** Lines 67-89, called on the detected files at line 26. *)
Definition formatMigrations (ctx : Context)
    (addedMigrations : list FileChange) : completion str :=
  let pairs := pairsOf addedMigrations in
  match sort (keys pairs) with
  | [firstTimestamp] =>
      match get firstTimestamp pairs with
      | Some group => formatLoneMigration ctx group
      | None => Throw TypeError
      end
  | _ => Normal (formatMultipleMigrations ctx addedMigrations)
  end.

(** Line 27. *)
Definition section (formattedMigrations : str) : str :=
  START ++ [NL] ++ heading ++ [NL; NL] ++ formattedMigrations
    ++ [NL; NL] ++ END_.

(** Lines 26-33. *)
Definition computedBody (ctx : Context) (addedMigrations : list FileChange)
  : completion str :=
  match formatMigrations ctx addedMigrations with
  | Normal formattedMigrations =>
      Normal (newBody (oldBody (pull_request ctx))
                (section formattedMigrations))
  | Throw e => Throw e
  end.

Section Run.

Variable W : Type.
Variable github : forall A, request A -> W -> completion A * W.

Definition run (ctx : Context) : M W unit :=
  let pr := pull_request ctx in
  let* files := await github ListFiles in
  let addedMigrations := addedMigrations files in
  let* newBody := liftC (computedBody ctx addedMigrations) in
  let* _ := updateBody github (oldBody pr) newBody in
  reconcileLabels github addedMigrations pr.

End Run.

Arguments run {W} github ctx.

End DoUndo.

(** * Vocabulary of the properties and test inputs *)

(** ** Substrings *)

(** [p] occurs in [s] as a substring. *)
Definition occurs (p s : str) : Prop := exists a b, s = a ++ p ++ b.

(** [old] ends with a white space unit. *)
Definition endsWithWhiteSpace (old : str) : Prop :=
  exists a c, old = a ++ [c] /\ isWhiteSpace c = true.

(** ** The change detector in the words of the spec *)

(** A migration file in the words of the spec: status [added] and a path
    under the migration directory. *)
Definition isMigration (f : FileChange) : Prop :=
  status f = lit "added" /\
  exists rest, filename f = lit "database/rentec/schema/migrations/" ++ rest.

(** [detects files out]: [out] is [files] with exactly the records that
    are no migration files left out. *)
Inductive detects : list FileChange -> list FileChange -> Prop :=
| detects_nil : detects [] []
| detects_keep f files out :
    isMigration f -> detects files out -> detects (f :: files) (f :: out)
| detects_drop f files out :
    ~ isMigration f -> detects files out -> detects (f :: files) out.

Definition detected (addedMigrations : list FileChange) : bool :=
  match addedMigrations with [] => false | _ :: _ => true end.

(** ** The label table in the words of the spec *)

(** The transition table of spec section 4.4, on the answers of the
    client: [labelTable github w detected present outcome] relates the
    remote state [w] before the label region to its completion, the remote
    state after it and the requests it made. *)
Inductive labelTable (W : Type)
    (github : forall A, request A -> W -> completion A * W) (w : W)
  : bool -> bool -> completion unit * (W * list call) -> Prop :=
| table_add_defined w1 r w2 :
    github _ (GetLabel labelName) w = (Normal tt, w1) ->
    github _ (AddLabels [labelName]) w1 = (r, w2) ->
    labelTable W github w true false
      (r, (w2, [Call (GetLabel labelName); Call (AddLabels [labelName])]))
| table_add_created e w1 w2 r w3 :
    github _ (GetLabel labelName) w = (Throw e, w1) ->
    statusOf e = Some 404%Z ->
    github _ (CreateLabel labelName (lit "1778d3")
                (lit "PR introduces database migration files")) w1
      = (Normal tt, w2) ->
    github _ (AddLabels [labelName]) w2 = (r, w3) ->
    labelTable W github w true false
      (r, (w3, [Call (GetLabel labelName);
                Call (CreateLabel labelName (lit "1778d3")
                        (lit "PR introduces database migration files"));
                Call (AddLabels [labelName])]))
| table_create_fails e w1 e' w2 :
    github _ (GetLabel labelName) w = (Throw e, w1) ->
    statusOf e = Some 404%Z ->
    github _ (CreateLabel labelName (lit "1778d3")
                (lit "PR introduces database migration files")) w1
      = (Throw e', w2) ->
    labelTable W github w true false
      (Throw e',
       (w2, [Call (GetLabel labelName);
             Call (CreateLabel labelName (lit "1778d3")
                     (lit "PR introduces database migration files"))]))
| table_lookup_fails e w1 :
    github _ (GetLabel labelName) w = (Throw e, w1) ->
    statusOf e <> Some 404%Z ->
    labelTable W github w true false
      (Throw e, (w1, [Call (GetLabel labelName)]))
| table_detected_present :
    labelTable W github w true true (Normal tt, (w, []))
| table_removed w1 :
    github _ (RemoveLabel labelName) w = (Normal tt, w1) ->
    labelTable W github w false true
      (Normal tt, (w1, [Call (RemoveLabel labelName)]))
| table_already_removed e w1 :
    github _ (RemoveLabel labelName) w = (Throw e, w1) ->
    statusOf e = Some 404%Z ->
    labelTable W github w false true
      (Normal tt, (w1, [Call (RemoveLabel labelName)]))
| table_remove_fails e w1 :
    github _ (RemoveLabel labelName) w = (Throw e, w1) ->
    statusOf e <> Some 404%Z ->
    labelTable W github w false true
      (Throw e, (w1, [Call (RemoveLabel labelName)]))
| table_absent :
    labelTable W github w false false (Normal tt, (w, [])).

(** ** The do/undo summary in the words of the spec *)

(** The added-line count in the words of the claim: the lines of the
    patch that begin with "+", the "+++" header line of the patch left
    out.  The header of a unified diff stands ahead of the first hunk, so
    a line that begins with "+++" is the header line only while no hunk
    header "@@" has been seen; after it, such a line is an added line
    whose text begins with "++". *)
Fixpoint countAddedLines (beforeHunks : bool) (lines : list str) : nat :=
  match lines with
  | [] => 0
  | l :: ls =>
      if startsWith l (lit "@@") then countAddedLines false ls
      else if beforeHunks && startsWith l (lit "+++") then
        countAddedLines beforeHunks ls
      else if startsWith l (lit "+") then S (countAddedLines beforeHunks ls)
      else countAddedLines beforeHunks ls
  end.

Definition addedLineCount (patch : str) : nat :=
  countAddedLines true (split NL patch).

(** [doFile.patch || ""] *)
Definition patchText (f : FileChange) : str :=
  match patch f with Some p => p | None => [] end.

(** The pattern in the words of the spec: digits, a literal dot, "do" or
    "undo", a literal dot, anything, and ".sql". *)
Definition literalDotPattern : RegExp :=
  Seq (plus digit)
    (Seq (word (lit "."))
       (Seq (Alt (word (lit "do")) (word (lit "undo")))
          (Seq (word (lit "."))
             (Seq (Star any) (word (lit ".sql")))))).

(** The strings a regular expression matches. *)
Inductive matches : RegExp -> str -> Prop :=
| matches_eps : matches Eps []
| matches_class p c : p c = true -> matches (Class p) [c]
| matches_seq r1 r2 s1 s2 :
    matches r1 s1 -> matches r2 s2 -> matches (Seq r1 r2) (s1 ++ s2)
| matches_alt_l r1 r2 s : matches r1 s -> matches (Alt r1 r2) s
| matches_alt_r r1 r2 s : matches r2 s -> matches (Alt r1 r2) s
| matches_star_nil r : matches (Star r) []
| matches_star_more r s1 s2 :
    matches r s1 -> matches (Star r) s2 -> matches (Star r) (s1 ++ s2).

(** A base name in the words of the claim: digits, ".", "do" or "undo",
    ".", anything, ".sql". *)
Definition literalName (digits role rest : str) : str :=
  digits ++ lit "." ++ role ++ lit "." ++ rest ++ lit ".sql".

Definition isDigit (c : N) : bool := ((48 <=? c) && (c <=? 57))%N.

(** ** A remote side that applies every request

    The state the hosting platform keeps for one pull request and its
    repository, and a client that answers from it: a label definition that
    does not exist is a 404 on lookup, a label that is not on the pull
    request is a 404 on removal. *)

Record Remote := mkRemote {
  r_files : list FileChange;
  r_body : option str;
  r_labels : list label;
  r_definitions : list str
}.

Definition onPullRequest (name : str) (w : Remote) : bool :=
  existsb (str_eqb name) (map labelText (r_labels w)).

Definition remote (A : Type) (r : request A) (w : Remote)
  : completion A * Remote :=
  match r in request T return completion T * Remote with
  | ListFiles => (Normal (r_files w), w)
  | PullsUpdate b =>
      (Normal tt, mkRemote (r_files w) (Some b) (r_labels w) (r_definitions w))
  | GetLabel name =>
      if existsb (str_eqb name) (r_definitions w) then (Normal tt, w)
      else (Throw (RequestError (Some 404%Z)), w)
  | CreateLabel name _ _ =>
      if existsb (str_eqb name) (r_definitions w)
      then (Throw (RequestError (Some 422%Z)), w)
      else (Normal tt,
            mkRemote (r_files w) (r_body w) (r_labels w)
              (r_definitions w ++ [name]))
  | AddLabels names =>
      (Normal tt,
       mkRemote (r_files w) (r_body w)
         (r_labels w
            ++ map LabelObject
                 (filter (fun n => negb (onPullRequest n w)) names))
         (r_definitions w))
  | RemoveLabel name =>
      if onPullRequest name w then
        (Normal tt,
         mkRemote (r_files w) (r_body w)
           (filter (fun l => negb (str_eqb name (labelText l))) (r_labels w))
           (r_definitions w))
      else (Throw (RequestError (Some 404%Z)), w)
  end.

(** What does not change between runs on one pull request. *)
Record Site := mkSite {
  s_owner : str;
  s_repo : str;
  s_number : Z;
  s_sha : str
}.

(** The event payload a run receives when the remote state is [w]. *)
Definition payload (site : Site) (w : Remote) : Context :=
  mkContext (s_owner site) (s_repo site)
    (mkPR (s_number site) (r_body w) (s_sha site) (r_labels w)).

Definition bodyOf (w : Remote) : str :=
  match r_body w with Some b => b | None => [] end.

(** ** Both versions at once *)

Inductive version := Flat | Paired.

(** The summary a version renders under the heading. *)
Definition summaryOf (v : version) (ctx : Context)
    (addedMigrations : list FileChange) : completion str :=
  match v with
  | Flat => Normal (FlatList.lines ctx addedMigrations)
  | Paired => DoUndo.formatMigrations ctx addedMigrations
  end.

Definition sectionOf (v : version) (ctx : Context)
    (addedMigrations : list FileChange) : completion str :=
  match v with
  | Flat => Normal (FlatList.section ctx addedMigrations)
  | Paired =>
      match DoUndo.formatMigrations ctx addedMigrations with
      | Normal formattedMigrations => Normal (DoUndo.section formattedMigrations)
      | Throw e => Throw e
      end
  end.

Definition computedBodyOf (v : version) (ctx : Context)
    (addedMigrations : list FileChange) : completion str :=
  match v with
  | Flat => Normal (FlatList.computedBody ctx addedMigrations)
  | Paired => DoUndo.computedBody ctx addedMigrations
  end.

Definition runOf (v : version) {W : Type}
    (github : forall A, request A -> W -> completion A * W) (ctx : Context)
  : M W unit :=
  match v with
  | Flat => FlatList.run github ctx
  | Paired => DoUndo.run github ctx
  end.

(** ** Bodies, sections and runs *)

(** A rendered section: the start marker, text without the end marker,
    the end marker. *)
Definition delimited (section : str) : Prop :=
  exists X, section = START ++ X ++ END_ /\ ~ occurs END_ X.

(** A body that holds the sections [START ++ c ++ END_] of earlier runs,
    each after its unrelated text [u], and the unrelated text [tail] at the
    end. *)
Fixpoint assemble (chunks : list (str * str)) (tail : str) : str :=
  match chunks with
  | [] => tail
  | (u, c) :: rest => u ++ START ++ c ++ END_ ++ assemble rest tail
  end.

(** The unrelated text of such a body, in its order. *)
Definition unrelated (chunks : list (str * str)) (tail : str) : str :=
  concat (map fst chunks) ++ tail.

(** The claim of the empty case at one payload: the run computes a body
    that holds no section and no trailing white space. *)
Definition noSectionLeft (v : version) (ctx : Context) : Prop :=
  exists new,
    computedBodyOf v ctx [] = Normal new /\
    countSections new = 0 /\ trimEnd new = new.

(** The claim at one payload with one earlier section between the
    unrelated texts [pre] and [post]: the computed body holds at most one
    section, exactly one when a migration file is detected, and holds
    [pre] and, after it, [post]. *)
Definition sectionReplaced (v : version) (ctx : Context)
    (addedMigrations : list FileChange) (pre post : str) : Prop :=
  exists new,
    computedBodyOf v ctx addedMigrations = Normal new /\
    countSections new <= 1 /\
    (addedMigrations <> [] -> countSections new = 1) /\
    exists x y z, new = x ++ pre ++ y ++ post ++ z.

(** A run against the remote side leaves a state on which the next run
    has nothing to do. *)
Definition settled (v : version) (site : Site) (w : Remote) : Prop :=
  computedBodyOf v (payload site w) (addedMigrations (r_files w))
    = Normal (bodyOf w) /\
  onPullRequest labelName w = detected (addedMigrations (r_files w)).

(** Running twice: the second run, started on the state the first one
    left, leaves that state as it is and issues no write request. *)
Definition secondRunQuiet (v : version) (site : Site) (w : Remote) : Prop :=
  let first := runOf v remote (payload site w) (w, []) in
  let w1 := fst (snd first) in
  let second := runOf v remote (payload site w1) (w1, []) in
  fst (snd second) = w1 /\ filter isWrite (snd (snd second)) = [].

(** ** Vocabulary of the further properties *)

(** [.] of a regular expression refuses exactly these units. *)
Definition isLineTerminator (c : N) : bool :=
  ((c =? 10) || (c =? 13) || (c =? 8232) || (c =? 8233))%N.

(** The base names line 69 accepts, spelled out: digits, any unit that
    ends no line, "do" or "undo", any such unit, any text, any such unit,
    "sql". *)
Definition acceptedName (name : str) : Prop :=
  exists digits c1 role c2 rest c3,
    name = digits ++ [c1] ++ role ++ [c2] ++ rest ++ [c3] ++ lit "sql" /\
    digits <> [] /\ forallb isDigit digits = true /\
    (role = lit "do" \/ role = lit "undo") /\
    isLineTerminator c1 = false /\ isLineTerminator c2 = false /\
    isLineTerminator c3 = false.

(** Lines 72-75: the two keys a detected file is stored under. *)
Definition nameOf (f : FileChange) : str := basename (filename f).

Definition timestampOf (f : FileChange) : str := nth 0 (split 46%N (nameOf f)) [].

Definition roleOf (f : FileChange) : str :=
  match split 46%N (nameOf f) with
  | _ :: r :: _ => r
  | _ => lit "undefined"
  end.

(** [f] passes the test of line 74. *)
Definition accepted (f : FileChange) : Prop := test DoUndo.regex (nameOf f) = true.

(** [pairs[timestamp]], an absent group read as the empty object. *)
Definition groupOf (timestamp : str) (pairs : obj (obj FileChange)) : obj FileChange :=
  match get timestamp pairs with Some g => g | None => [] end.

Definition isUpdate (c : call) : bool :=
  match c with
  | Call (PullsUpdate _) => true
  | Call _ => false
  end.

Definition isLabelRequest (c : call) : bool :=
  match c with
  | Call ListFiles => false
  | Call (PullsUpdate _) => false
  | Call _ => true
  end.

(** The log a run leaves when it starts with an empty one. *)
Definition requestsOf {W : Type} (r : completion unit * (W * list call)) : list call :=
  snd (snd r).

(** Line 31 of part_000: the bullet of one detected file. *)
Definition bulletOf (ctx : Context) (f : FileChange) : str :=
  lit "- [" ++ basename (filename f) ++ lit "](" ++ FlatList.url ctx f ++ lit ")".

(** ** Test inputs *)

(** The three records of testable property 2, and three that differ from
    the first in letter case or in the separator only. *)
Definition file_0001 : FileChange :=
  mkFile (lit "database/rentec/schema/migrations/0001.do.create_x.sql")
    (lit "added") None.
Definition file_0001_modified : FileChange :=
  mkFile (lit "database/rentec/schema/migrations/0001.do.create_x.sql")
    (lit "modified") None.
Definition file_elsewhere : FileChange :=
  mkFile (lit "other/path/0001.do.sql") (lit "added") None.
Definition file_upper_case : FileChange :=
  mkFile (lit "Database/rentec/schema/migrations/0001.do.create_x.sql")
    (lit "added") None.
Definition file_backslashes : FileChange :=
  mkFile (lit "database\rentec\schema\migrations\0001.do.create_x.sql")
    (lit "added") None.
Definition file_status_case : FileChange :=
  mkFile (lit "database/rentec/schema/migrations/0001.do.create_x.sql")
    (lit "Added") None.

Definition github_ok (A : Type) (r : request A) (w : unit) : completion A * unit :=
  match r in request T return completion T * unit with
  | ListFiles => (Normal [], w)
  | _ => (Normal tt, w)
  end.

Definition migration (name : string) (patch : option str) : FileChange :=
  mkFile (targetPrefix ++ lit name) added patch.

Definition ctx_plain (body : option str) : Context :=
  mkContext (lit "rentec") (lit "app") (mkPR 7 body (lit "c0ffee") []).

Definition rentec_app : Site := mkSite (lit "rentec") (lit "app") 7 (lit "c0ffee").

Definition body_trailing_newline : Context :=
  mkContext (lit "rentec") (lit "app")
    (mkPR 7 (Some (lit "Adds a column." ++ [NL])) (lit "c0ffee") []).

(** Testable property 7: a "do" file whose patch adds three lines, and
    its "undo" file. *)
Definition do_add_col : FileChange :=
  migration "20240101.do.add_col.sql"
    (Some (lit "+++ b/20240101.do.add_col.sql" ++ [NL]
             ++ lit "@@ -0,0 +1,3 @@" ++ [NL]
             ++ lit "+ALTER TABLE t" ++ [NL]
             ++ lit "+  ADD COLUMN c int" ++ [NL]
             ++ lit "+;")).

(** A "do" file with two added lines, the second of which reads "++b". *)
Definition do_plus_plus : FileChange :=
  migration "20240101.do.add_col.sql"
    (Some (lit "@@ -0,0 +1,2 @@" ++ [NL] ++ lit "+a" ++ [NL] ++ lit "+++b")).

Definition undo_add_col : FileChange :=
  migration "20240101.undo.add_col.sql" (Some (lit "+ALTER TABLE t DROP COLUMN c;")).

Definition dashed_name : FileChange :=
  migration "20240101-do-add_col.sql" (Some (lit "+ALTER TABLE t ADD COLUMN c int;")).

(** A body in which a start marker comes together only once the section
    inside it is removed. *)
Definition ctx_nested : Context :=
  ctx_plain
    (Some (lit "<!-- DATABASE_CHANGES_" ++ START ++ lit "old" ++ END_
             ++ lit "START -->text" ++ END_)).

Definition ctx_stale_section : Context :=
  ctx_plain
    (Some (lit "Adds a column." ++ [NL; NL]
             ++ DoUndo.section (lit "This PR adds the following migration files:")
             ++ [NL])).

(** An unrelated text that ends with a blank, and a file whose name
    holds both markers. *)
Definition ctx_blank_after : Context :=
  ctx_plain (Some (lit "head" ++ START ++ lit "old" ++ END_ ++ lit "tail ")).

Definition marker_name : FileChange :=
  mkFile (targetPrefix ++ END_ ++ START) added None.

Definition ctx_two_texts : Context :=
  ctx_plain
    (Some (assemble
             [(lit "Adds a column." ++ [NL; NL],
               [NL] ++ lit "### Database changes" ++ [NL; NL]
                 ++ lit "- [0001.do.x.sql](https://example.org/0001.do.x.sql)"
                 ++ [NL; NL])]
             ([NL; NL] ++ lit "Reviewed by the data team." ++ [NL]))).

(** A body that holds a start marker and no end marker, and a file whose
    name holds the end marker. *)
Definition remote_open_marker : Remote :=
  mkRemote [migration "20240101.do.add_col.sql" None] (Some START) [] [].

Definition remote_marker_name : Remote :=
  mkRemote [mkFile (targetPrefix ++ END_) added None] None [] [].

Definition remote_pair : Remote :=
  mkRemote [do_add_col; undo_add_col] (Some (lit "Adds a column." ++ [NL])) [] [].

(** A client that is down: every request fails with status 503. *)
Definition github_down (A : Type) (r : request A) (w : unit) : completion A * unit :=
  (Throw (RequestError (Some 503%Z)), w).

(** A client that lists one migration file and refuses every update of
    the body with status 403. *)
Definition github_read_only (A : Type) (r : request A) (w : unit)
  : completion A * unit :=
  match r in request T return completion T * unit with
  | ListFiles => (Normal [file_0001], w)
  | PullsUpdate _ => (Throw (RequestError (Some 403%Z)), w)
  | _ => (Normal tt, w)
  end.

Definition do_add_col_again : FileChange := migration "20240101.do.add_col.sql" None.

Definition remote_two_timestamps : Remote :=
  mkRemote [migration "20240101.do.add_col.sql" None;
            migration "20240102.do.add_idx.sql" None]
    (Some (lit "Two migrations.")) [] [].

Definition remote_lone_do : Remote := mkRemote [do_add_col] None [] [].

Definition remote_untouched : Remote :=
  mkRemote [] (Some (lit "Fixes a typo.")) [] [].

(** * Properties *)

(** ** Strings *)

Lemma str_eqb_eq (a b : str) : str_eqb a b = true <-> a = b.
Proof.
  revert b; induction a as [|x a IH]; intros [|y b]; simpl;
    try (split; [discriminate | congruence]); [tauto|].
  rewrite andb_true_iff, N.eqb_eq, IH.
  split; [intros [-> ->]; reflexivity | intros H; inversion H; auto].
Qed.

Lemma str_eqb_refl (a : str) : str_eqb a a = true.
Proof. apply str_eqb_eq; reflexivity. Qed.

Lemma str_eqb_neq (a b : str) : str_eqb a b = false <-> a <> b.
Proof.
  rewrite <- str_eqb_eq. destruct (str_eqb a b); split; congruence.
Qed.

Lemma startsWith_iff (s p : str) :
  startsWith s p = true <-> exists r, s = p ++ r.
Proof.
  revert s; induction p as [|x p IH]; intros s; simpl.
  - split; [exists s; reflexivity | reflexivity].
  - destruct s as [|y s].
    + split; [discriminate | intros [r H]; discriminate].
    + rewrite andb_true_iff, N.eqb_eq, IH. split.
      * intros [-> [r ->]]. exists r; reflexivity.
      * intros [r H]. inversion H; subst. split; [reflexivity | exists r; reflexivity].
Qed.

Lemma startsWith_app (p r : str) : startsWith (p ++ r) p = true.
Proof. apply startsWith_iff. exists r; reflexivity. Qed.

Lemma occurs_cons (p : str) (c : N) (s : str) : occurs p s -> occurs p (c :: s).
Proof. intros (a & b & ->). exists (c :: a), b. reflexivity. Qed.

Lemma occurs_app_l (p u v : str) : occurs p u -> occurs p (u ++ v).
Proof.
  intros (a & b & ->). exists a, (b ++ v). now rewrite <- !app_assoc.
Qed.

Lemma occurs_app_r (p u v : str) : occurs p v -> occurs p (u ++ v).
Proof.
  intros (a & b & ->). exists (u ++ a), b. now rewrite <- !app_assoc.
Qed.

Lemma indexOf_Some (s p : str) (n : nat) :
  indexOf s p = Some n -> exists a b, s = a ++ p ++ b /\ length a = n.
Proof.
  revert n; induction s as [|c s IH]; intros n; cbn [indexOf].
  - destruct (startsWith [] p) eqn:E; [|discriminate].
    intros [= <-]. apply startsWith_iff in E as [r E]. exists [], r. auto.
  - destruct (startsWith (c :: s) p) eqn:E.
    + intros [= <-]. apply startsWith_iff in E as [r E]. exists [], r. auto.
    + destruct (indexOf s p) as [m|]; [|discriminate].
      intros [= <-]. destruct (IH m eq_refl) as (a & b & -> & <-).
      exists (c :: a), b. auto.
Qed.

Lemma indexOf_None (s p : str) : indexOf s p = None <-> ~ occurs p s.
Proof.
  split.
  - induction s as [|c s IH]; cbn [indexOf]; intros H (a & b & E).
    + assert (S : startsWith [] p = true) by (apply startsWith_iff; destruct a; [eauto|discriminate]).
      rewrite S in H. discriminate.
    + destruct (startsWith (c :: s) p) eqn:S; [discriminate|].
      destruct a as [|x a].
      * assert (startsWith (c :: s) p = true) by (apply startsWith_iff; eauto).
        congruence.
      * destruct (indexOf s p); [discriminate|].
        inversion E; subst. apply IH; [reflexivity | exists a, b; reflexivity].
  - intros H. destruct (indexOf s p) as [n|] eqn:E; [|reflexivity].
    exfalso. apply H. destruct (indexOf_Some _ _ _ E) as (a & b & -> & _).
    exists a, b; reflexivity.
Qed.

(** A pattern whose first unit does not occur again in it cannot begin
    before a copy of itself and run into that copy. *)
Lemma startsWith_before (h : N) (t c r : str) (x : N) :
  ~ In h t -> ~ occurs (h :: t) (x :: c) ->
  startsWith (x :: c ++ (h :: t) ++ r) (h :: t) = false.
Proof.
  intros Hh Hc. destruct (startsWith _ _) eqn:E; [|reflexivity].
  exfalso. apply startsWith_iff in E as [q E].
  change (x :: c ++ (h :: t) ++ r) with ((x :: c) ++ (h :: t) ++ r) in E.
  apply app_eq_app in E as [l [[E1 E2]|[E1 E2]]].
  - (* the pattern ends inside [x :: c] *)
    apply Hc. exists [], l. exact E1.
  - (* the pattern runs into the copy *)
    destruct l as [|y l].
    + apply Hc. exists [], []. rewrite app_nil_r in E1. rewrite <- E1.
      simpl. now rewrite app_nil_r.
    + simpl in E1. inversion E1 as [[Ex Et]]. subst x.
      apply Hh. rewrite Et. apply in_or_app. right.
      inversion E2. left; reflexivity.
Qed.

(** Then the first occurrence of the pattern in [c ++ p ++ r] is the
    copy, when [c] holds none. *)
Lemma indexOf_first (h : N) (t c r : str) :
  ~ In h t -> ~ occurs (h :: t) c ->
  indexOf (c ++ (h :: t) ++ r) (h :: t) = Some (length c).
Proof.
  intros Hh. induction c as [|x c IH]; intros Hc.
  - cbn [app indexOf length].
    change (h :: t ++ r) with ((h :: t) ++ r).
    now rewrite startsWith_app.
  - change ((x :: c) ++ (h :: t) ++ r) with (x :: (c ++ (h :: t) ++ r)).
    cbn [indexOf length].
    rewrite (startsWith_before h t c r x Hh Hc).
    rewrite IH; [reflexivity|].
    intros H. apply Hc. apply occurs_cons, H.
Qed.

Lemma occurs_split (p a b : str) (x : N) :
  ~ In x p -> occurs p (a ++ x :: b) -> occurs p a \/ occurs p b.
Proof.
  intros Hx (a' & b' & E).
  apply app_eq_app in E as [l [[E1 E2]|[E1 E2]]].
  - apply app_eq_app in E2 as [l2 [[E3 E4]|[E3 E4]]].
    + destruct l2 as [|y l2].
      * left. exists a', []. rewrite app_nil_r in E3. now rewrite E1, E3, app_nil_r.
      * inversion E4; subst. exfalso. apply Hx. apply in_or_app. right. now left.
    + left. exists a', l2. now rewrite E1, E3.
  - destruct l as [|y l].
    + simpl in E2. destruct p as [|h t].
      * left. exists a, []. now rewrite app_nil_r.
      * inversion E2; subst. exfalso. apply Hx. now left.
    + inversion E2; subst. right. exists l, b'. reflexivity.
Qed.

Lemma occurs_nil_inv (p : str) : occurs p [] -> p = [].
Proof.
  intros (a & b & E). symmetry in E.
  apply app_eq_nil in E as [_ E]. now apply app_eq_nil in E as [E _].
Qed.

(** Appending separators that are no part of the pattern adds no
    occurrence. *)
Lemma occurs_app_sep (p a w : str) :
  p <> [] -> (forall x, In x w -> ~ In x p) ->
  occurs p (a ++ w) -> occurs p a.
Proof.
  intros Hp. revert a; induction w as [|x w IH]; intros a Hw H.
  - now rewrite app_nil_r in H.
  - apply occurs_split in H; [|apply Hw; now left].
    destruct H as [H|H]; [exact H|].
    exfalso. specialize (IH [] (fun y Hy => Hw y (or_intror Hy)) H).
    apply Hp, occurs_nil_inv, IH.
Qed.

Lemma skipn_length_app (a b : str) (n : nat) :
  skipn (length a + n) (a ++ b) = skipn n b.
Proof. induction a; simpl; auto. Qed.

(** ** Removing and counting the delimited sections *)

Section Markers.

(** Markers whose first unit occurs only once in them, as "<" does in
    both markers of the script. *)
Variables (ho hc : N) (to tc : str).
Hypothesis ho_once : ~ In ho to.
Hypothesis hc_once : ~ In hc tc.

Local Abbreviation op := (ho :: to).
Local Abbreviation cl := (hc :: tc).

Lemma replaceFrom_skip (s : str) (k : nat) :
  replaceFrom op cl k s = replaceFrom op cl 0 (skipn k s).
Proof.
  revert k; induction s as [|c s IH]; intros [|k]; try reflexivity.
  cbn [replaceFrom skipn]. apply IH.
Qed.

Lemma countFrom_skip (s : str) (k : nat) :
  countFrom op cl k s = countFrom op cl 0 (skipn k s).
Proof.
  revert k; induction s as [|c s IH]; intros [|k]; try reflexivity.
  cbn [countFrom skipn]. apply IH.
Qed.

(** At a section: what the scan sees. *)
Lemma at_section (c r : str) :
  ~ occurs cl c ->
  startsWith (op ++ c ++ cl ++ r) op = true /\
  indexOf (skipn (length op) (op ++ c ++ cl ++ r)) cl = Some (length c) /\
  skipn (length op + length c + length cl - 1) (to ++ c ++ cl ++ r) = r.
Proof.
  intros Hc. split; [apply startsWith_app|]. split.
  - replace (length op) with (length op + 0) by lia.
    rewrite skipn_length_app. cbn [skipn].
    apply indexOf_first; assumption.
  - replace (length op + length c + length cl - 1)
      with (length to + (length c + (length cl + 0))) by (simpl; lia).
    now rewrite !skipn_length_app.
Qed.

Lemma replaceFrom_section (u c r : str) :
  ~ occurs op u -> ~ occurs cl c ->
  replaceFrom op cl 0 (u ++ op ++ c ++ cl ++ r) = u ++ replaceFrom op cl 0 r.
Proof.
  intros Hu Hc. induction u as [|x u IH].
  - destruct (at_section c r Hc) as (S1 & S2 & S3).
    change ([] ++ op ++ c ++ cl ++ r) with (ho :: (to ++ c ++ cl ++ r)) in *.
    change (op ++ c ++ cl ++ r) with (ho :: (to ++ c ++ cl ++ r)) in *.
    cbn [replaceFrom]. rewrite S1, S2, replaceFrom_skip, S3. reflexivity.
  - change ((x :: u) ++ op ++ c ++ cl ++ r) with (x :: (u ++ op ++ c ++ cl ++ r)).
    cbn [replaceFrom].
    change (startsWith (x :: u ++ op ++ c ++ cl ++ r) op)
      with (startsWith (x :: u ++ (ho :: to) ++ c ++ cl ++ r) (ho :: to)).
    rewrite (startsWith_before ho to u (c ++ cl ++ r) x ho_once Hu).
    rewrite IH; [reflexivity|].
    intros H. apply Hu, occurs_cons, H.
Qed.

Lemma countFrom_section (u c r : str) :
  ~ occurs op u -> ~ occurs cl c ->
  countFrom op cl 0 (u ++ op ++ c ++ cl ++ r) = S (countFrom op cl 0 r).
Proof.
  intros Hu Hc. induction u as [|x u IH].
  - destruct (at_section c r Hc) as (S1 & S2 & S3).
    change ([] ++ op ++ c ++ cl ++ r) with (ho :: (to ++ c ++ cl ++ r)) in *.
    change (op ++ c ++ cl ++ r) with (ho :: (to ++ c ++ cl ++ r)) in *.
    cbn [countFrom]. rewrite S1, S2, countFrom_skip, S3. reflexivity.
  - change ((x :: u) ++ op ++ c ++ cl ++ r) with (x :: (u ++ op ++ c ++ cl ++ r)).
    cbn [countFrom].
    change (startsWith (x :: u ++ op ++ c ++ cl ++ r) op)
      with (startsWith (x :: u ++ (ho :: to) ++ c ++ cl ++ r) (ho :: to)).
    rewrite (startsWith_before ho to u (c ++ cl ++ r) x ho_once Hu).
    apply IH.
    intros H. apply Hu, occurs_cons, H.
Qed.

Lemma startsWith_absent (u : str) :
  ~ occurs op u -> startsWith u op = false.
Proof.
  intros Hu. destruct (startsWith u op) eqn:E; [|reflexivity].
  exfalso. apply Hu. apply startsWith_iff in E as [r ->]. now exists [], r.
Qed.

Lemma replaceFrom_absent (u : str) :
  ~ occurs op u -> replaceFrom op cl 0 u = u.
Proof.
  induction u as [|x u IH]; intros Hu; [reflexivity|].
  cbn [replaceFrom]. rewrite (startsWith_absent _ Hu), IH; [reflexivity|].
  intros H. apply Hu, occurs_cons, H.
Qed.

Lemma countFrom_absent (u : str) :
  ~ occurs op u -> countFrom op cl 0 u = 0.
Proof.
  induction u as [|x u IH]; intros Hu; [reflexivity|].
  cbn [countFrom]. rewrite (startsWith_absent _ Hu). apply IH.
  intros H. apply Hu, occurs_cons, H.
Qed.

(** A string in which no opening marker is followed by a closing one
    is left as it is. *)
Lemma replaceFrom_no_match (s : str) :
  (forall a m b, s <> a ++ op ++ m ++ cl ++ b) ->
  replaceFrom op cl 0 s = s.
Proof.
  induction s as [|x s IH]; intros Hs; [reflexivity|].
  cbn [replaceFrom].
  assert (IH' : replaceFrom op cl 0 s = s).
  { apply IH. intros a m b ->. apply (Hs (x :: a) m b). reflexivity. }
  destruct (startsWith (x :: s) op) eqn:E; [|now rewrite IH'].
  destruct (indexOf _ cl) as [j|] eqn:I; [|now rewrite IH'].
  exfalso. apply startsWith_iff in E as [r E].
  rewrite E in I. replace (length op) with (length op + 0) in I by lia.
  rewrite skipn_length_app in I. cbn [skipn] in I.
  apply indexOf_Some in I as (m & b & -> & _).
  apply (Hs [] m b). exact E.
Qed.

Lemma countFrom_no_match (s : str) :
  (forall a m b, s <> a ++ op ++ m ++ cl ++ b) -> countFrom op cl 0 s = 0.
Proof.
  induction s as [|x s IH]; intros Hs; [reflexivity|].
  cbn [countFrom].
  assert (IH' : countFrom op cl 0 s = 0).
  { apply IH. intros a m b ->. apply (Hs (x :: a) m b). reflexivity. }
  destruct (startsWith (x :: s) op) eqn:E; [|exact IH'].
  destruct (indexOf _ cl) as [j|] eqn:I; [|exact IH'].
  exfalso. apply startsWith_iff in E as [r E].
  rewrite E in I. replace (length op) with (length op + 0) in I by lia.
  rewrite skipn_length_app in I. cbn [skipn] in I.
  apply indexOf_Some in I as (m & b & -> & _).
  apply (Hs [] m b). exact E.
Qed.

End Markers.

(** Both markers begin with "<", which they hold only once, and hold no
    line feed. *)
Lemma not_In_by_existsb (x : N) (l : str) :
  existsb (N.eqb x) l = false -> ~ In x l.
Proof.
  intros E H. assert (existsb (N.eqb x) l = true); [|congruence].
  apply existsb_exists. exists x. split; [exact H | apply N.eqb_refl].
Qed.

Lemma START_once : ~ In 60%N (tl START).
Proof. apply not_In_by_existsb. reflexivity. Qed.

Lemma END_once : ~ In 60%N (tl END_).
Proof. apply not_In_by_existsb. reflexivity. Qed.

Lemma START_no_NL : ~ In NL START.
Proof. apply not_In_by_existsb. reflexivity. Qed.

Lemma END_no_NL : ~ In NL END_.
Proof. apply not_In_by_existsb. reflexivity. Qed.

Lemma removeSections_section (u c r : str) :
  ~ occurs START u -> ~ occurs END_ c ->
  removeSections (u ++ START ++ c ++ END_ ++ r) = u ++ removeSections r.
Proof.
  exact (replaceFrom_section 60 60 (tl START) (tl END_) START_once END_once u c r).
Qed.

Lemma countSections_section (u c r : str) :
  ~ occurs START u -> ~ occurs END_ c ->
  countSections (u ++ START ++ c ++ END_ ++ r) = S (countSections r).
Proof.
  exact (countFrom_section 60 60 (tl START) (tl END_) START_once END_once u c r).
Qed.

Lemma removeSections_absent (u : str) :
  ~ occurs START u -> removeSections u = u.
Proof. exact (replaceFrom_absent 60 60 (tl START) (tl END_) u). Qed.

Lemma countSections_absent (u : str) :
  ~ occurs START u -> countSections u = 0.
Proof. exact (countFrom_absent 60 60 (tl START) (tl END_) u). Qed.

Lemma removeSections_no_match (s : str) :
  (forall a m b, s <> a ++ START ++ m ++ END_ ++ b) -> removeSections s = s.
Proof. exact (replaceFrom_no_match 60 60 (tl START) (tl END_) s). Qed.

(** A body in which no start marker is followed by an end marker holds
    no section. *)
Lemma countSections_no_match (s : str) :
  (forall a m b, s <> a ++ START ++ m ++ END_ ++ b) -> countSections s = 0.
Proof. exact (countFrom_no_match 60 60 (tl START) (tl END_) s). Qed.

(** ** [trimEnd] *)

Lemma trimEnd_cons (c : N) (s : str) :
  trimEnd (c :: s) =
  match trimEnd s with
  | [] => if isWhiteSpace c then [] else [c]
  | t => c :: t
  end.
Proof. unfold trimEnd; simpl. now destruct (fold_right _ _ s). Qed.

Lemma trimEnd_blank (w : str) : forallb isWhiteSpace w = true -> trimEnd w = [].
Proof.
  induction w as [|c w IH]; [reflexivity|]. simpl forallb.
  rewrite andb_true_iff. intros [Hc Hw]. now rewrite trimEnd_cons, IH, Hc.
Qed.

Lemma trimEnd_app_blank (s w : str) :
  forallb isWhiteSpace w = true -> trimEnd (s ++ w) = trimEnd s.
Proof.
  intros Hw. induction s as [|c s IH].
  - now apply trimEnd_blank.
  - simpl app. now rewrite !trimEnd_cons, IH.
Qed.

(** [trimEnd] cuts a run of white space off the end, and nothing else. *)
Lemma trimEnd_prefix (s : str) :
  exists w, s = trimEnd s ++ w /\ forallb isWhiteSpace w = true.
Proof.
  induction s as [|c s (w & E & Hw)].
  - now exists [].
  - rewrite trimEnd_cons. destruct (trimEnd s) as [|t0 t] eqn:T.
    + destruct (isWhiteSpace c) eqn:Hc.
      * exists (c :: w). simpl in *. now rewrite Hc, Hw, E at 1.
      * exists w. simpl in *. now rewrite E at 1.
    + exists w. now rewrite E at 1.
Qed.

Lemma trimEnd_idem (s : str) : trimEnd (trimEnd s) = trimEnd s.
Proof.
  destruct (trimEnd_prefix s) as (w & E & Hw).
  rewrite E at 2. now rewrite trimEnd_app_blank.
Qed.

(** A string is changed by [trimEnd] exactly when it ends with white
    space. *)
Lemma trimEnd_changes (s : str) :
  trimEnd s <> s <-> exists a c, s = a ++ [c] /\ isWhiteSpace c = true.
Proof.
  split.
  - intros H. destruct (trimEnd_prefix s) as (w & E & Hw).
    destruct (exists_last (l := w)) as (w' & c & ->).
    + intros ->. apply H. rewrite app_nil_r in E. now symmetry.
    + exists (trimEnd s ++ w'), c. split; [now rewrite <- app_assoc|].
      rewrite forallb_app in Hw. apply andb_true_iff in Hw as [_ Hc].
      simpl in Hc. now rewrite andb_true_r in Hc.
  - intros (a & c & -> & Hc) E.
    rewrite (trimEnd_app_blank a [c]) in E by (simpl; now rewrite Hc).
    destruct (trimEnd_prefix a) as (w & Ea & _).
    apply (f_equal (@length N)) in E. apply (f_equal (@length N)) in Ea.
    rewrite !length_app in *. simpl in E. lia.
Qed.

(** ** Change detector *)

Lemma isAddedMigration_iff (f : FileChange) :
  isAddedMigration f = true <-> isMigration f.
Proof.
  unfold isAddedMigration, isMigration.
  rewrite andb_true_iff, str_eqb_eq, startsWith_iff. reflexivity.
Qed.

(** C5: the change detector returns exactly the records with status
    "added" whose file name starts with
    "database/rentec/schema/migrations/", in their order; the empty list
    gives the empty list; of the records of testable property 2 only the
    first is detected, and neither letter case nor the separator is
    normalised. *)
Theorem change_detector_exact :
  (forall files, detects files (addedMigrations files)) /\
  addedMigrations [] = [] /\
  addedMigrations [file_0001; file_0001_modified; file_elsewhere] = [file_0001] /\
  addedMigrations [file_upper_case; file_backslashes; file_status_case] = [].
Proof.
  split; [|repeat split; reflexivity].
  induction files as [|f files IH]; [constructor|].
  unfold addedMigrations in *. cbn [filter].
  destruct (isAddedMigration f) eqn:E.
  - apply detects_keep; [now apply isAddedMigration_iff | exact IH].
  - apply detects_drop; [|exact IH].
    intros H. apply isAddedMigration_iff in H. congruence.
Qed.

(** ** Label reconciler *)

Lemma is404_iff (e : exn) : is404 e = true <-> statusOf e = Some 404%Z.
Proof.
  unfold is404. destruct (statusOf e) as [st|].
  - rewrite Z.eqb_eq. split; congruence.
  - split; discriminate.
Qed.

Lemma is404_false (e : exn) : is404 e = false -> statusOf e <> Some 404%Z.
Proof. intros H E. apply is404_iff in E. congruence. Qed.

(** The label is looked for by its exact name. *)
Lemma hasLabel_iff (pr : PullRequest) :
  hasLabel pr = true <-> In labelName (map labelText (labels pr)).
Proof.
  unfold hasLabel. rewrite existsb_exists. split.
  - intros (x & Hin & E). apply str_eqb_eq in E. now subst.
  - intros H. exists labelName. split; [exact H | apply str_eqb_refl].
Qed.

(** C3: the label region of [run] follows the four-transition table.
    Detected and absent: the definition is looked up by the exact name
    "Database changes", created with color 1778d3 and the fixed description
    on a 404 (any other failure propagates), then the label is added;
    detected and present: no request; not detected and present: the label
    is removed, a 404 counting as done and any other failure propagating;
    not detected and absent: no request. *)
Theorem label_reconciler_table (W : Type)
    (github : forall A, request A -> W -> completion A * W)
    (addedMigrations : list FileChange) (pr : PullRequest) (w : W) :
  labelTable W github w (detected addedMigrations) (hasLabel pr)
    (reconcileLabels github addedMigrations pr (w, [])).
Proof.
  unfold reconcileLabels.
  destruct addedMigrations as [|f l]; cbn [detected length Nat.ltb Nat.leb];
    destruct (hasLabel pr); cbn [negb]; try constructor.
  - (* not detected, present *)
    unfold tryCatch, await; cbn [fst snd app].
    destruct (github unit (RemoveLabel labelName) w) as [[[]|e] w1] eqn:R.
    + now apply table_removed.
    + destruct (is404 e) eqn:E; cbn [negb].
      * apply table_already_removed with e; [exact R | now apply is404_iff].
      * apply table_remove_fails; [exact R | now apply is404_false].
  - (* detected, absent *)
    unfold bind, ensureLabelExists, tryCatch, await; cbn [fst snd app].
    destruct (github unit (GetLabel labelName) w) as [[[]|e] w1] eqn:G.
    + cbn [fst snd app].
      destruct (github unit (AddLabels [labelName]) w1) as [r w2] eqn:A.
      now apply table_add_defined with w1.
    + destruct (is404 e) eqn:E.
      * cbn [fst snd app].
        destruct (github unit (CreateLabel _ _ _) w1) as [[[]|e'] w2] eqn:C.
        -- cbn [fst snd app].
           destruct (github unit (AddLabels [labelName]) w2) as [r w3] eqn:A.
           apply table_add_created with e w1 w2; auto. now apply is404_iff.
        -- apply table_create_fails with e w1; auto. now apply is404_iff.
      * apply table_lookup_fails; [exact G | now apply is404_false].
Qed.

(** Testable property 5: no label definition on the repository and one
    detected migration file; the definition is created before the label
    is added. *)
Example label_created_then_added :
  reconcileLabels remote [file_0001] (pull_request (payload rentec_app (mkRemote [file_0001] None [] [])))
    (mkRemote [file_0001] None [] [], [])
  = (Normal tt,
     (mkRemote [file_0001] None [LabelObject labelName] [labelName],
      [Call (GetLabel labelName);
       Call (CreateLabel labelName (lit "1778d3")
               (lit "PR introduces database migration files"));
       Call (AddLabels [labelName])])).
Proof. reflexivity. Qed.

(** Testable property 6: the payload still lists the label, the remote
    side has it no more; the 404 of the removal ends the run normally. *)
Example removal_not_found_is_done :
  reconcileLabels remote []
    (mkPR 7 None (lit "c0ffee") [LabelString labelName])
    (mkRemote [] None [] [], [])
  = (Normal tt, (mkRemote [] None [] [], [Call (RemoveLabel labelName)])).
Proof. reflexivity. Qed.

(** ** Body reconciler: the pieces *)

Lemma newBody_unfold (old section : str) :
  newBody old section =
  match bodySansDbChanges old, section with
  | [], s => s
  | b, [] => b
  | b, s => b ++ [NL; NL] ++ s
  end.
Proof.
  unfold newBody, filterBoolean. cbn [filter].
  destruct (bodySansDbChanges old), section; reflexivity.
Qed.

Lemma countFrom_zero_replaceFrom (op cl s : str) (k : nat) :
  countFrom op cl k s = 0 -> replaceFrom op cl k s = skipn k s.
Proof.
  revert k; induction s as [|c s IH]; intros [|k]; cbn [countFrom replaceFrom skipn];
    try reflexivity; [|apply IH].
  destruct (startsWith (c :: s) op).
  - destruct (indexOf _ cl); [discriminate|].
    intros H. now rewrite (IH 0 H).
  - intros H. now rewrite (IH 0 H).
Qed.

(** A body without a delimited section is left as it is. *)
Lemma removeSections_none (s : str) : countSections s = 0 -> removeSections s = s.
Proof. apply countFrom_zero_replaceFrom. Qed.

(** C10: in the flat-list version, with no migration file detected and a
    body that holds no delimited section, the computed body is the old body
    with its trailing white space removed; the update request is issued
    (once, with that body) when the old body ends with white space, and no
    request is issued when it does not. *)
Theorem flat_list_plain_body (ctx : Context) (W : Type)
    (github : forall A, request A -> W -> completion A * W)
    (w : W) (log : list call) :
  let old := oldBody (pull_request ctx) in
  let new := FlatList.computedBody ctx [] in
  countSections old = 0 ->
  new = trimEnd old /\
  (endsWithWhiteSpace old ->
   snd (snd (updateBody github old new (w, log)))
     = log ++ [Call (PullsUpdate (trimEnd old))]) /\
  (~ endsWithWhiteSpace old ->
   updateBody github old new (w, log) = (Normal tt, (w, log))).
Proof.
  intros old new H.
  assert (E : new = trimEnd old).
  { unfold new, FlatList.computedBody. fold old.
    rewrite newBody_unfold. unfold bodySansDbChanges.
    rewrite (removeSections_none old H).
    change (FlatList.section ctx []) with (@nil N).
    now destruct (trimEnd old). }
  split; [exact E|]. rewrite E. unfold updateBody. split.
  - intros Hw. apply trimEnd_changes in Hw.
    assert (N : str_eqb old (trimEnd old) = false) by (apply str_eqb_neq; congruence).
    rewrite N. cbn [negb]. unfold await. cbn [fst snd].
    now destruct (github unit (PullsUpdate (trimEnd old)) w).
  - intros Hw.
    assert (N : str_eqb old (trimEnd old) = true).
    { apply str_eqb_eq. destruct (list_eq_dec N.eq_dec (trimEnd old) old) as [Eq|Ne].
      - now symmetry.
      - exfalso. apply Hw. now apply trimEnd_changes. }
    now rewrite N.
Qed.

Lemma flat_list_plain_body_witness :
  FlatList.computedBody body_trailing_newline [] = lit "Adds a column." /\
  snd (snd (updateBody github_ok (lit "Adds a column." ++ [NL])
              (FlatList.computedBody body_trailing_newline []) (tt, [])))
    = [Call (PullsUpdate (lit "Adds a column."))].
Proof.
  destruct (flat_list_plain_body body_trailing_newline unit github_ok tt [])
    as (E & Hw & _).
  - reflexivity.
  - split; [exact E|]. apply Hw.
    exists (lit "Adds a column."), NL. split; reflexivity.
Defined.

(** ** The two versions on the flat list *)

Lemma lines_agree (ctx : Context) (addedMigrations : list FileChange) :
  join [NL] (map (fun f => lit "- " ++ DoUndo.fileLink ctx f) addedMigrations)
  = FlatList.lines ctx addedMigrations.
Proof.
  reflexivity.
Qed.

Lemma lines_nonempty (ctx : Context) (f : FileChange) (l : list FileChange) :
  (0 <? length (FlatList.lines ctx (f :: l))) = true.
Proof.
  unfold FlatList.lines. cbn [map join].
  destruct (map _ l); reflexivity.
Qed.

(** With a number of timestamps other than one, the do/undo version
    renders the flat list. *)
Lemma formatMigrations_flat (ctx : Context) (addedMigrations : list FileChange) :
  length (DoUndo.timestamps addedMigrations) <> 1 ->
  DoUndo.formatMigrations ctx addedMigrations
  = Normal (DoUndo.formatMultipleMigrations ctx addedMigrations).
Proof.
  unfold DoUndo.timestamps, DoUndo.formatMigrations. intros H.
  destruct (sort (keys (DoUndo.pairsOf addedMigrations))) as [|t [|t' l]];
    try reflexivity.
  now contradiction H.
Qed.

(** C9: when at least one migration file is detected and the detected
    files fall into no or into several timestamp groups, the do/undo
    version computes the body the flat-list version computes: the flat list
    of all detected files under "This PR adds the following migration
    files:". *)
Theorem versions_agree_on_flat_list (ctx : Context) (files : list FileChange) :
  addedMigrations files <> [] ->
  length (DoUndo.timestamps (addedMigrations files)) <> 1 ->
  DoUndo.formatMigrations ctx (addedMigrations files)
  = Normal (lit "This PR adds the following migration files:" ++ [NL; NL]
              ++ FlatList.lines ctx (addedMigrations files)) /\
  DoUndo.computedBody ctx (addedMigrations files)
  = Normal (FlatList.computedBody ctx (addedMigrations files)).
Proof.
  intros Hne Hts. unfold DoUndo.computedBody.
  rewrite (formatMigrations_flat ctx _ Hts).
  unfold DoUndo.formatMultipleMigrations. rewrite lines_agree.
  destruct (addedMigrations files) as [|f l]; [now contradiction Hne|].
  rewrite lines_nonempty. split; [reflexivity|].
  unfold FlatList.computedBody, FlatList.section, DoUndo.section.
  rewrite lines_nonempty.
  f_equal; f_equal; rewrite <- ?app_assoc; reflexivity.
Qed.

Lemma versions_agree_on_flat_list_witness :
  DoUndo.computedBody (ctx_plain (Some (lit "Two migrations.")))
    [migration "20240101.do.add_col.sql" None;
     migration "20240102.do.add_idx.sql" None]
  = Normal (FlatList.computedBody (ctx_plain (Some (lit "Two migrations.")))
              [migration "20240101.do.add_col.sql" None;
               migration "20240102.do.add_idx.sql" None]).
Proof.
  refine (proj2 (versions_agree_on_flat_list
                   (ctx_plain (Some (lit "Two migrations.")))
                   [migration "20240101.do.add_col.sql" None;
                    migration "20240102.do.add_idx.sql" None] _ _)).
  - discriminate.
  - vm_compute. discriminate.
Defined.

(** ** Regular expressions *)

Lemma nullable_complete (r : RegExp) (s : str) :
  matches r s -> s = [] -> nullable r = true.
Proof.
  induction 1 as [|p c Hp|r1 r2 s1 s2 _ IH1 _ IH2|r1 r2 s _ IH|r1 r2 s _ IH| |];
    intros E; cbn [nullable]; try reflexivity.
  - discriminate.
  - apply app_eq_nil in E as [E1 E2]. now rewrite IH1, IH2.
  - now rewrite IH.
  - rewrite IH by assumption. apply orb_true_r.
Qed.

Lemma deriv_complete (r : RegExp) (x : str) :
  matches r x -> forall c s, x = c :: s -> matches (deriv c r) s.
Proof.
  induction 1 as [|p d Hp|r1 r2 s1 s2 H1 IH1 H2 IH2|r1 r2 x H IH|r1 r2 x H IH
                 |r|r s1 s2 H1 IH1 H2 IH2];
    intros c s E; cbn [deriv].
  - discriminate.
  - injection E as -> <-. rewrite Hp. constructor.
  - destruct s1 as [|c1 s1].
    + cbn [app] in E. rewrite (nullable_complete r1 [] H1 eq_refl).
      apply matches_alt_r. now apply IH2.
    + injection E as -> <-.
      assert (M : matches (Seq (deriv c r1) r2) (s1 ++ s2))
        by (constructor; [now apply IH1 | exact H2]).
      destruct (nullable r1); [now apply matches_alt_l | exact M].
  - apply matches_alt_l. now apply IH.
  - apply matches_alt_r. now apply IH.
  - discriminate.
  - destruct s1 as [|c1 s1].
    + cbn [app] in E. now apply IH2.
    + injection E as -> <-. constructor; [now apply IH1 | exact H2].
Qed.

(** [test] accepts every string the regular expression matches. *)
Lemma test_complete (r : RegExp) (s : str) : matches r s -> test r s = true.
Proof.
  unfold test. revert r; induction s as [|c s IH]; intros r H; cbn [fold_left].
  - now apply (nullable_complete r []).
  - apply IH. now apply (deriv_complete r (c :: s)).
Qed.

Lemma matches_word (s : str) : matches (word s) s.
Proof.
  induction s as [|c s IH]; cbn [word]; [constructor|].
  change (c :: s) with ([c] ++ s). constructor; [|exact IH].
  constructor. apply N.eqb_refl.
Qed.

Lemma matches_star_all (p : N -> bool) (s : str) :
  forallb p s = true -> matches (Star (Class p)) s.
Proof.
  induction s as [|c s IH]; cbn [forallb]; [constructor|].
  rewrite andb_true_iff. intros [Hc Hs].
  change (c :: s) with ([c] ++ s). constructor; [now constructor | now apply IH].
Qed.

Lemma split_at_sep (sep : N) (a b : str) :
  ~ In sep a -> split sep (a ++ sep :: b) = a :: split sep b.
Proof.
  induction a as [|c a IH]; intros Ha; cbn [app split].
  - now rewrite N.eqb_refl.
  - assert (E : N.eqb c sep = false).
    { apply N.eqb_neq. intros ->. apply Ha. now left. }
    rewrite E, IH; [reflexivity|]. intros H. apply Ha. now right.
Qed.

Lemma digits_hold_no_dot (ds : str) : forallb isDigit ds = true -> ~ In 46%N ds.
Proof.
  intros H I. rewrite forallb_forall in H. now apply H in I.
Qed.

(** A name with literal dots around "do" or "undo" is accepted by line 69
    and grouped under its digits and its role by lines 75-77. *)
Lemma literal_name_is_grouped (pairs : obj (obj FileChange)) (f : FileChange)
    (digits role rest : str) :
  basename (filename f) = literalName digits role rest ->
  digits <> [] -> forallb isDigit digits = true ->
  role = lit "do" \/ role = lit "undo" ->
  test DoUndo.regex (basename (filename f)) = true /\
  DoUndo.addPair pairs f
  = set digits
      (set role f (match get digits pairs with Some g => g | None => [] end))
      pairs.
Proof.
  intros En Hne Hd Hr.
  assert (T : test DoUndo.regex (literalName digits role rest) = true).
  { apply test_complete. unfold DoUndo.regex, literalName.
    constructor.
    - destruct digits as [|d ds]; [now contradiction Hne|].
      cbn [forallb] in Hd. apply andb_true_iff in Hd as [H0 Hs].
      change (d :: ds) with ([d] ++ ds). constructor; [now constructor|].
      now apply matches_star_all.
    - change (lit "." ++ role ++ lit "." ++ rest ++ lit ".sql")
        with ([46%N] ++ role ++ [46%N] ++ rest ++ [46%N] ++ lit "sql").
      constructor; [now constructor|].
      replace (role ++ [46%N] ++ rest ++ [46%N] ++ lit "sql")
        with ((role ++ []) ++ [46%N] ++ rest ++ [46%N] ++ lit "sql")
        by now rewrite app_nil_r.
      destruct Hr as [-> | ->].
      + change ((lit "do" ++ []) ++ [46%N] ++ rest ++ [46%N] ++ lit "sql")
          with ([] ++ lit "do" ++ [46%N] ++ rest ++ [46%N] ++ lit "sql").
        constructor; [apply matches_alt_r; constructor|].
        constructor; [apply matches_word|].
        constructor; [now constructor|].
        constructor; [now apply matches_star_all; apply forallb_forall|].
        constructor; [now constructor | apply matches_word].
      + change ((lit "undo" ++ []) ++ [46%N] ++ rest ++ [46%N] ++ lit "sql")
          with (lit "un" ++ lit "do" ++ [46%N] ++ rest ++ [46%N] ++ lit "sql").
        constructor; [apply matches_alt_l; apply matches_word|].
        constructor; [apply matches_word|].
        constructor; [now constructor|].
        constructor; [now apply matches_star_all; apply forallb_forall|].
        constructor; [now constructor | apply matches_word]. }
  rewrite En. split; [exact T|].
  unfold DoUndo.addPair. rewrite En, T.
  assert (S : split 46%N (literalName digits role rest)
              = digits :: role :: split 46%N (rest ++ lit ".sql")).
  { unfold literalName. change (lit ".") with [46%N]. cbn [app].
    rewrite split_at_sep by now apply digits_hold_no_dot.
    rewrite split_at_sep; [reflexivity|].
    destruct Hr as [-> | ->]; apply not_In_by_existsb; reflexivity. }
  rewrite S. cbn [nth]. destruct Hr as [-> | ->]; reflexivity.
Qed.

(** ** Do/undo version: the lone migration *)

(** The text of the lone format (lines 91-102), with the count of
    line 98. *)
Lemma lone_format_text (ctx : Context) (files : list FileChange)
    (timestamp : str) (group : obj FileChange) (doFile undoFile : FileChange) :
  DoUndo.pairsOf (addedMigrations files) = [(timestamp, group)] ->
  get (lit "do") group = Some doFile ->
  get (lit "undo") group = Some undoFile ->
  DoUndo.formatMigrations ctx (addedMigrations files)
  = Normal
      (lit "Do " ++ DoUndo.pointDown ++ lit " Undo " ++ DoUndo.pointRight
         ++ lit " [" ++ basename (filename undoFile) ++ lit "]("
         ++ DoUndo.fileUrl ctx undoFile ++ lit ")" ++ [NL]
         ++ DoUndo.fileUrl ctx doFile ++ lit "#L1-L"
         ++ numberToString (DoUndo.doLineCount doFile + 1)).
Proof.
  intros Hp Hdo Hundo. unfold DoUndo.formatMigrations. rewrite Hp.
  cbn [keys map fst sort fold_right insertSorted get].
  rewrite str_eqb_refl. unfold DoUndo.formatLoneMigration.
  rewrite Hdo, Hundo. unfold DoUndo.fileLink.
  f_equal. rewrite <- !app_assoc. reflexivity.
Qed.

Lemma countAddedLines_bounds (lines : list str) (beforeHunks : bool) :
  length (filter DoUndo.isAddedLine lines) <= countAddedLines beforeHunks lines.
Proof.
  revert beforeHunks; induction lines as [|l ls IH]; intros b; [apply le_n|].
  cbn [filter countAddedLines]. unfold DoUndo.isAddedLine at 1.
  destruct (startsWith l (lit "@@")) eqn:H.
  - assert (P : startsWith l (lit "+") = false).
    { destruct (startsWith l (lit "+")) eqn:P; [|reflexivity].
      apply startsWith_iff in H as [r ->]. discriminate P. }
    rewrite P. cbn [andb]. apply IH.
  - destruct (startsWith l (lit "+++")) eqn:T.
    + rewrite andb_true_r. cbn [negb]. rewrite andb_false_r.
      destruct b; cbn [andb]; [apply IH|].
      assert (P : startsWith l (lit "+") = true).
      { apply startsWith_iff in T as [r ->]. reflexivity. }
      rewrite P. specialize (IH false). lia.
    + rewrite andb_false_r. cbn [negb]. rewrite andb_true_r.
      destruct (startsWith l (lit "+")); cbn [length]; specialize (IH b); lia.
Qed.

(** The count of line 98 never exceeds the count of the claim. *)
Lemma doLineCount_le_addedLineCount (f : FileChange) :
  DoUndo.doLineCount f <= addedLineCount (patchText f).
Proof. apply countAddedLines_bounds. Qed.

(** C6, at the failing input: a "do" file whose patch is the hunk header
    and the added lines "a" and "++b".  Two lines begin with "+" and
    neither is the header line of the patch, so the claim's fragment is
    [#L1-L3]; line 98 leaves out every line that begins with "+++", counts
    one and renders [#L1-L2].  On the patch of testable property 7, whose
    only "+++" line is the header, both counts are three and the fragment
    is [#L1-L4]. *)
Theorem added_line_with_plus_signs_is_not_counted :
  addedLineCount (patchText do_plus_plus) = 2 /\
  DoUndo.doLineCount do_plus_plus = 1 /\
  DoUndo.formatMigrations (ctx_plain None) [do_plus_plus; undo_add_col]
  = Normal
      (lit "Do " ++ DoUndo.pointDown ++ lit " Undo " ++ DoUndo.pointRight
         ++ lit " [20240101.undo.add_col.sql](https://github.com/rentec/app/blob/c0ffee/database/rentec/schema/migrations/20240101.undo.add_col.sql)"
         ++ [NL]
         ++ lit "https://github.com/rentec/app/blob/c0ffee/database/rentec/schema/migrations/20240101.do.add_col.sql#L1-L2") /\
  addedLineCount (patchText do_add_col) = 3 /\
  DoUndo.doLineCount do_add_col = 3 /\
  DoUndo.formatMigrations (ctx_plain None) [do_add_col; undo_add_col]
  = Normal
      (lit "Do " ++ DoUndo.pointDown ++ lit " Undo " ++ DoUndo.pointRight
         ++ lit " [20240101.undo.add_col.sql](https://github.com/rentec/app/blob/c0ffee/database/rentec/schema/migrations/20240101.undo.add_col.sql)"
         ++ [NL]
         ++ lit "https://github.com/rentec/app/blob/c0ffee/database/rentec/schema/migrations/20240101.do.add_col.sql#L1-L4").
Proof. repeat split; reflexivity. Qed.

(** ** Do/undo version: names and missing files *)

(** C7, at the failing input: the base name "20240101-do-add_col.sql" does
    not match the pattern with literal dots, yet line 69 accepts it, and
    lines 75-77 group it under the key "20240101-do-add_col" with the role
    "sql"; the rendering then throws. *)
Theorem dashed_name_is_grouped :
  test literalDotPattern (basename (filename dashed_name)) = false /\
  test DoUndo.regex (basename (filename dashed_name)) = true /\
  DoUndo.pairsOf (addedMigrations [dashed_name])
  = [(lit "20240101-do-add_col", [(lit "sql", dashed_name)])] /\
  DoUndo.formatMigrations (payload rentec_app (mkRemote [dashed_name] None [] []))
    (addedMigrations [dashed_name])
  = Throw TypeError.
Proof. repeat split; reflexivity. Qed.

(** An accepted name whose second part is "__proto__": the group of its
    timestamp is created and gets no own entry. *)
Example proto_role_stores_no_entry :
  DoUndo.pairsOf [migration "1xdo.__proto__.sql" None] = [(lit "1xdo", [])].
Proof. reflexivity. Qed.

(** A name the pattern does not match is left out of the grouping and
    stays in the detected list. *)
Lemma addPair_no_match (pairs : obj (obj FileChange)) (f : FileChange) :
  test DoUndo.regex (basename (filename f)) = false ->
  DoUndo.addPair pairs f = pairs.
Proof. unfold DoUndo.addPair. now intros ->. Qed.

Lemma formatLoneMigration_missing (ctx : Context) (group : obj FileChange) :
  get (lit "do") group = None \/ get (lit "undo") group = None ->
  DoUndo.formatLoneMigration ctx group = Throw TypeError.
Proof.
  unfold DoUndo.formatLoneMigration. intros [H|H]; rewrite H; [reflexivity|].
  now destruct (get (lit "do") group).
Qed.

(** C8, at the failing input: a pull request that adds only the "do" file
    of a timestamp (or only the "undo" file).  The rendering throws a
    TypeError, and the run ends with it after the file listing, before any
    write. *)
Theorem lone_file_throws :
  DoUndo.formatMigrations (payload rentec_app (mkRemote [do_add_col] None [] []))
    (addedMigrations [do_add_col]) = Throw TypeError /\
  DoUndo.formatMigrations (payload rentec_app (mkRemote [undo_add_col] None [] []))
    (addedMigrations [undo_add_col]) = Throw TypeError /\
  DoUndo.run remote (payload rentec_app (mkRemote [do_add_col] None [] []))
    (mkRemote [do_add_col] None [] [], [])
  = (Throw TypeError, (mkRemote [do_add_col] None [] [], [Call ListFiles])).
Proof. repeat split; reflexivity. Qed.

(** ** Body reconciler: one run *)

Lemma newBody_nil_l (old section : str) :
  bodySansDbChanges old = [] -> newBody old section = section.
Proof. rewrite newBody_unfold. intros ->. reflexivity. Qed.

Lemma newBody_nil_r (old : str) : newBody old [] = bodySansDbChanges old.
Proof. rewrite newBody_unfold. now destruct (bodySansDbChanges old). Qed.

Lemma newBody_both (old section : str) :
  bodySansDbChanges old <> [] -> section <> [] ->
  newBody old section = bodySansDbChanges old ++ [NL; NL] ++ section.
Proof.
  rewrite newBody_unfold.
  destruct (bodySansDbChanges old), section; try reflexivity; now intros.
Qed.

(** The remainder is a prefix of the body without its sections. *)
Lemma absent_in_remainder (p old : str) :
  ~ occurs p (removeSections old) -> ~ occurs p (bodySansDbChanges old).
Proof.
  intros H O. apply H. unfold bodySansDbChanges in O.
  destruct (trimEnd_prefix (removeSections old)) as (w & E & _).
  rewrite E. now apply occurs_app_l.
Qed.

Lemma bodySans_fixed (old : str) :
  trimEnd (bodySansDbChanges old) = bodySansDbChanges old.
Proof. apply trimEnd_idem. Qed.

Lemma delimited_nonempty (section : str) : delimited section -> section <> [].
Proof. intros (X & -> & _). discriminate. Qed.

Lemma START_nonempty : START <> [].
Proof. discriminate. Qed.

Lemma absent_before_blank_line (u : str) :
  ~ occurs START u -> ~ occurs START (u ++ [NL; NL]).
Proof.
  intros H O. apply H. apply (occurs_app_sep START u [NL; NL] START_nonempty); [|exact O].
  intros x [<-|[<-|[]]]; apply START_no_NL.
Qed.

(** After a run that appends a section, the body is the old remainder and
    that one section. *)
Lemma reconciled_with_section (old section : str) :
  ~ occurs START (removeSections old) -> delimited section ->
  bodySansDbChanges (newBody old section) = bodySansDbChanges old /\
  countSections (newBody old section) = 1.
Proof.
  intros Hs (X & -> & HX).
  pose proof (absent_in_remainder START old Hs) as Hr.
  destruct (bodySansDbChanges old) as [|r0 r] eqn:R.
  - rewrite (newBody_nil_l old _ R). unfold bodySansDbChanges.
    pose proof (removeSections_section [] X [] Hr HX) as E1.
    pose proof (countSections_section [] X [] Hr HX) as E2.
    rewrite app_nil_r in E1, E2. cbn [app] in E1, E2.
    now rewrite E1, E2.
  - rewrite newBody_both by (rewrite ?R; discriminate). rewrite R.
    pose proof (absent_before_blank_line _ Hr) as Hu.
    pose proof (removeSections_section _ X [] Hu HX) as E1.
    pose proof (countSections_section _ X [] Hu HX) as E2.
    rewrite app_nil_r in E1, E2.
    rewrite (app_assoc (r0 :: r) [NL; NL] (START ++ X ++ END_)).
    unfold bodySansDbChanges at 1. rewrite E1, E2. split; [|reflexivity].
    change (removeSections []) with (@nil N). rewrite app_nil_r.
    rewrite trimEnd_app_blank by reflexivity.
    rewrite <- R. apply bodySans_fixed.
Qed.

(** After a run that appends nothing, the body is the old remainder. *)
Lemma reconciled_without_section (old : str) :
  ~ occurs START (removeSections old) ->
  newBody old [] = bodySansDbChanges old /\
  bodySansDbChanges (newBody old []) = bodySansDbChanges old /\
  countSections (newBody old []) = 0.
Proof.
  intros Hs. pose proof (absent_in_remainder START old Hs) as Hr.
  rewrite newBody_nil_r. split; [reflexivity|]. split.
  - unfold bodySansDbChanges at 1. rewrite (removeSections_absent _ Hr).
    apply bodySans_fixed.
  - now apply countSections_absent.
Qed.

(** Reconciling again with the same section changes nothing. *)
Lemma newBody_idem (old section : str) :
  ~ occurs START (removeSections old) -> section = [] \/ delimited section ->
  newBody (newBody old section) section = newBody old section.
Proof.
  intros Hs [->|Hd].
  - destruct (reconciled_without_section old Hs) as (E1 & E2 & _).
    now rewrite newBody_nil_r, E2.
  - destruct (reconciled_with_section old section Hs Hd) as (E & _).
    rewrite (newBody_unfold (newBody old section)), E.
    now rewrite (newBody_unfold old).
Qed.

(** ** Both versions at once *)

Lemma computedBodyOf_section (v : version) (ctx : Context)
    (addedMigrations : list FileChange) :
  computedBodyOf v ctx addedMigrations =
  match sectionOf v ctx addedMigrations with
  | Normal section => Normal (newBody (oldBody (pull_request ctx)) section)
  | Throw e => Throw e
  end.
Proof.
  destruct v; [reflexivity|]. unfold computedBodyOf, sectionOf, DoUndo.computedBody.
  now destruct (DoUndo.formatMigrations ctx addedMigrations).
Qed.

Lemma END_absent_literal (s : str) : indexOf s END_ = None -> ~ occurs END_ s.
Proof. apply indexOf_None. Qed.

(** Text between two line feeds holds the end marker only if one of its
    parts does. *)
Lemma END_absent_framed (a b c : str) :
  ~ occurs END_ a -> ~ occurs END_ b -> ~ occurs END_ c ->
  ~ occurs END_ (a ++ [NL] ++ b ++ [NL] ++ c).
Proof.
  intros Ha Hb Hc O.
  apply (occurs_split END_ a _ NL END_no_NL) in O as [O|O]; [now apply Ha|].
  apply (occurs_split END_ b _ NL END_no_NL) in O as [O|O]; [now apply Hb|].
  now apply Hc.
Qed.

Lemma END_absent_nil : ~ occurs END_ [].
Proof. now apply END_absent_literal. Qed.

Lemma doUndo_section_delimited (formattedMigrations : str) :
  ~ occurs END_ formattedMigrations ->
  delimited (DoUndo.section formattedMigrations).
Proof.
  intros H. exists ([NL] ++ heading ++ [NL; NL] ++ formattedMigrations ++ [NL; NL]).
  split.
  - unfold DoUndo.section. now rewrite <- !app_assoc.
  - change ([NL] ++ heading ++ [NL; NL] ++ formattedMigrations ++ [NL; NL])
      with ([] ++ [NL] ++ heading ++ [NL] ++ ([] ++ [NL] ++ formattedMigrations ++ [NL] ++ [NL])).
    apply END_absent_framed; [apply END_absent_nil | now apply END_absent_literal |].
    apply END_absent_framed; [apply END_absent_nil | exact H | now apply END_absent_literal].
Qed.

Lemma flat_section_shape (ctx : Context) (addedMigrations : list FileChange) :
  FlatList.section ctx addedMigrations =
  match addedMigrations with
  | [] => []
  | _ :: _ =>
      DoUndo.section
        (lit "This PR adds the following migration files:" ++ [NL; NL]
           ++ FlatList.lines ctx addedMigrations)
  end.
Proof.
  unfold FlatList.section. destruct addedMigrations as [|f l]; [reflexivity|].
  rewrite lines_nonempty. unfold DoUndo.section. now rewrite <- !app_assoc.
Qed.

(** What a version appends: nothing (the flat list without a detected
    file), or a delimited section when the summary holds no end marker. *)
Lemma sectionOf_shape (v : version) (ctx : Context)
    (addedMigrations : list FileChange) (section : str) :
  (forall s, summaryOf v ctx addedMigrations = Normal s -> ~ occurs END_ s) ->
  sectionOf v ctx addedMigrations = Normal section ->
  (section = [] /\ addedMigrations = []) \/ delimited section.
Proof.
  intros Hs E. destruct v; cbn [sectionOf summaryOf] in *.
  - injection E as <-. rewrite flat_section_shape.
    destruct addedMigrations as [|f l]; [now left|]. right.
    apply doUndo_section_delimited.
    change (lit "This PR adds the following migration files:" ++ [NL; NL]
              ++ FlatList.lines ctx (f :: l))
      with (lit "This PR adds the following migration files:" ++ [NL] ++ []
              ++ [NL] ++ FlatList.lines ctx (f :: l)).
    apply END_absent_framed;
      [now apply END_absent_literal | apply END_absent_nil | now apply Hs].
  - destruct (DoUndo.formatMigrations ctx addedMigrations) as [fm|e]; [|discriminate].
    injection E as <-. right. apply doUndo_section_delimited. now apply Hs.
Qed.

(** ** Bodies made of unrelated text and sections *)

Lemma removeSections_assemble (chunks : list (str * str)) (tail : str) :
  ~ occurs START (unrelated chunks tail) ->
  (forall u c, In (u, c) chunks -> ~ occurs END_ c) ->
  removeSections (assemble chunks tail) = unrelated chunks tail.
Proof.
  unfold unrelated. induction chunks as [|[u c] rest IH]; intros Hs He.
  - now apply removeSections_absent.
  - cbn [assemble map fst concat] in *. rewrite <- app_assoc in *.
    rewrite removeSections_section.
    + rewrite IH; [reflexivity | |].
      * intros O. apply Hs. now apply occurs_app_r.
      * intros u' c' H. apply (He u' c'). now right.
    + intros O. apply Hs. now apply occurs_app_l.
    + apply (He u c). now left.
Qed.

(** ** The empty case *)

(** The removal is one pass from the left: on a body in which a start
    marker comes together only once the section inside it is removed, the
    flat-list version leaves a section. *)
Lemma nested_markers_leave_a_section :
  FlatList.computedBody ctx_nested [] = START ++ lit "text" ++ END_ /\
  ~ noSectionLeft Flat ctx_nested.
Proof.
  split; [reflexivity|].
  intros (new & E & C & _). injection E as <-. vm_compute in C. discriminate.
Qed.

(** C1, at the failing input: in the do/undo version a run that detects
    no migration file appends a section all the same.  Line 27 wraps the
    empty summary, so for every body the computed body ends with the
    section that holds the heading alone; on the body of testable property
    4 (text, then the section of an earlier run) the old section is
    replaced by that heading-only section, where the flat-list version
    (lines 35-38 of part_000) leaves the text alone. *)
Theorem heading_only_section_appended :
  (forall ctx, exists before,
      DoUndo.computedBody ctx []
      = Normal (before ++ START ++ [NL] ++ lit "### Database changes"
                  ++ [NL; NL; NL; NL] ++ END_)) /\
  DoUndo.computedBody ctx_stale_section []
  = Normal (lit "Adds a column." ++ [NL; NL] ++ START ++ [NL]
              ++ lit "### Database changes" ++ [NL; NL; NL; NL] ++ END_) /\
  countSections (lit "Adds a column." ++ [NL; NL] ++ START ++ [NL]
                   ++ lit "### Database changes" ++ [NL; NL; NL; NL] ++ END_)
  = 1 /\
  ~ noSectionLeft Paired ctx_stale_section /\
  FlatList.computedBody ctx_stale_section [] = lit "Adds a column.".
Proof.
  split; [|repeat split; try reflexivity].
  - intros ctx.
    change (DoUndo.computedBody ctx [])
      with (Normal (newBody (oldBody (pull_request ctx)) (DoUndo.section []))).
    rewrite newBody_unfold.
    destruct (bodySansDbChanges (oldBody (pull_request ctx))) as [|r0 r].
    + exists []. reflexivity.
    + exists ((r0 :: r) ++ [NL; NL]). f_equal.
      change (DoUndo.section [])
        with (START ++ [NL] ++ lit "### Database changes"
                ++ [NL; NL; NL; NL] ++ END_).
      now rewrite <- app_assoc.
  - intros (new & E & C & _). injection E as <-. vm_compute in C. discriminate.
Qed.

(** The do/undo version has no empty case: line 27 wraps whatever
    [formatMigrations] returns, so without a detected file the heading
    alone is appended between the markers. *)
Lemma paired_appends_heading_only (ctx : Context) :
  let old := oldBody (pull_request ctx) in
  DoUndo.computedBody ctx []
  = Normal (newBody old (START ++ [NL] ++ lit "### Database changes"
                           ++ [NL; NL; NL; NL] ++ END_)) /\
  (~ occurs START (removeSections old) ->
   countSections (newBody old (START ++ [NL] ++ lit "### Database changes"
                                 ++ [NL; NL; NL; NL] ++ END_)) = 1).
Proof.
  intros old. split; [reflexivity|]. intros Hs.
  apply (reconciled_with_section old _ Hs).
  apply (doUndo_section_delimited []), END_absent_nil.
Qed.

(** ** Replacement, not accumulation *)

(** C4 as stated fails in two ways: the white space that ends the
    unrelated text is trimmed, and a rendered summary that holds the
    markers counts as further sections. *)
Lemma unrelated_text_trimmed_and_markers_counted :
  ~ sectionReplaced Flat ctx_blank_after [do_add_col] (lit "head") (lit "tail ") /\
  countSections (FlatList.computedBody (ctx_plain None) [marker_name]) = 3 /\
  ~ sectionReplaced Flat (ctx_plain None) [marker_name] [] [].
Proof.
  split; [|split; [reflexivity|]].
  - intros (new & E & _ & _ & x & y & z & H). injection E as <-.
    assert (O : occurs (lit "tail ")
                  (FlatList.computedBody ctx_blank_after [do_add_col])).
    { exists (x ++ lit "head" ++ y), z. rewrite H. now rewrite <- !app_assoc. }
    apply indexOf_None in O; [exact O|]. vm_compute. reflexivity.
  - intros (new & E & C & _). injection E as <-. vm_compute in C. lia.
Qed.

(** C4, amended: for a body made of unrelated text and earlier sections,
    where the start marker does not occur in the unrelated text and the
    end marker occurs neither inside an earlier section nor in the rendered
    summary, a run that renders computes the unrelated text in its order,
    verbatim but for the white space trimmed at its end, followed (after a
    blank line) by the one new section if a section is rendered: at most
    one section, and exactly one when a migration file is detected.  The
    only other outcome is the TypeError of the do/undo rendering. *)
Theorem sections_replaced (v : version) (ctx : Context)
    (files : list FileChange) (chunks : list (str * str)) (tail : str) :
  oldBody (pull_request ctx) = assemble chunks tail ->
  ~ occurs START (unrelated chunks tail) ->
  (forall u c, In (u, c) chunks -> ~ occurs END_ c) ->
  (forall s, summaryOf v ctx (addedMigrations files) = Normal s ->
             ~ occurs END_ s) ->
  match computedBodyOf v ctx (addedMigrations files) with
  | Normal new =>
      exists section,
        sectionOf v ctx (addedMigrations files) = Normal section /\
        new = join [NL; NL]
                (filterBoolean [trimEnd (unrelated chunks tail); section]) /\
        countSections new = (match section with [] => 0 | _ :: _ => 1 end) /\
        (addedMigrations files <> [] -> countSections new = 1)
  | Throw e =>
      v = Paired /\
      DoUndo.formatMigrations ctx (addedMigrations files) = Throw e
  end.
Proof.
  intros Hold Hs He Hsum.
  pose proof (removeSections_assemble chunks tail Hs He) as R.
  rewrite <- Hold in R.
  assert (Hs' : ~ occurs START (removeSections (oldBody (pull_request ctx))))
    by now rewrite R.
  rewrite computedBodyOf_section.
  destruct (sectionOf v ctx (addedMigrations files)) as [section|e] eqn:S.
  - exists section. split; [reflexivity|].
    split; [unfold newBody, bodySansDbChanges; now rewrite R|].
    destruct (sectionOf_shape v ctx _ section Hsum S) as [[-> Ham]|Hd].
    + destruct (reconciled_without_section _ Hs') as (_ & _ & C).
      split; [exact C|]. intros Hne. now contradiction Hne.
    + destruct (reconciled_with_section _ section Hs' Hd) as (_ & C).
      pose proof (delimited_nonempty section Hd) as Hne.
      destruct section; [now contradiction Hne|]. now split.
  - destruct v; cbn [sectionOf] in S; [discriminate|]. split; [reflexivity|].
    now destruct (DoUndo.formatMigrations ctx (addedMigrations files)).
Qed.

Lemma sections_replaced_witness :
  computedBodyOf Paired ctx_two_texts [do_add_col; undo_add_col]
  = Normal
      (lit "Adds a column." ++ [NL; NL; NL; NL]
         ++ lit "Reviewed by the data team." ++ [NL; NL]
         ++ START ++ [NL] ++ lit "### Database changes" ++ [NL; NL]
         ++ lit "Do " ++ DoUndo.pointDown ++ lit " Undo " ++ DoUndo.pointRight
         ++ lit " [20240101.undo.add_col.sql](https://github.com/rentec/app/blob/c0ffee/database/rentec/schema/migrations/20240101.undo.add_col.sql)"
         ++ [NL]
         ++ lit "https://github.com/rentec/app/blob/c0ffee/database/rentec/schema/migrations/20240101.do.add_col.sql#L1-L4"
         ++ [NL; NL] ++ END_)
  /\ countSections
       (lit "Adds a column." ++ [NL; NL; NL; NL]
         ++ lit "Reviewed by the data team." ++ [NL; NL]
         ++ START ++ [NL] ++ lit "### Database changes" ++ [NL; NL]
         ++ lit "Do " ++ DoUndo.pointDown ++ lit " Undo " ++ DoUndo.pointRight
         ++ lit " [20240101.undo.add_col.sql](https://github.com/rentec/app/blob/c0ffee/database/rentec/schema/migrations/20240101.undo.add_col.sql)"
         ++ [NL]
         ++ lit "https://github.com/rentec/app/blob/c0ffee/database/rentec/schema/migrations/20240101.do.add_col.sql#L1-L4"
         ++ [NL; NL] ++ END_) = 1.
Proof.
  pose proof (sections_replaced Paired ctx_two_texts [do_add_col; undo_add_col]
    [(lit "Adds a column." ++ [NL; NL],
      [NL] ++ lit "### Database changes" ++ [NL; NL]
        ++ lit "- [0001.do.x.sql](https://example.org/0001.do.x.sql)"
        ++ [NL; NL])]
    ([NL; NL] ++ lit "Reviewed by the data team." ++ [NL])) as H.
  split; [reflexivity|].
  destruct H as (section & _ & _ & _ & C).
  - reflexivity.
  - apply indexOf_None. vm_compute. reflexivity.
  - intros u c [[= <- <-]|[]]. apply indexOf_None. vm_compute. reflexivity.
  - intros s [= <-]. apply indexOf_None. vm_compute. reflexivity.
  - apply C. discriminate.
Defined.

(** ** Idempotence *)

(** The update step against the remote side. *)
Lemma updateBody_remote (old new : str) (w : Remote) (log : list call) :
  updateBody remote old new (w, log) =
  if str_eqb old new then (Normal tt, (w, log))
  else (Normal tt,
        (mkRemote (r_files w) (Some new) (r_labels w) (r_definitions w),
         log ++ [Call (PullsUpdate new)])).
Proof. unfold updateBody. now destruct (str_eqb old new). Qed.

Lemma onPullRequest_added (w : Remote) :
  existsb (str_eqb labelName)
    (map labelText
       (r_labels w
          ++ map LabelObject
               (filter (fun n => negb (onPullRequest n w)) [labelName])))
  = true.
Proof.
  rewrite map_app, existsb_app. cbn [filter]. unfold onPullRequest.
  destruct (existsb (str_eqb labelName) (map labelText (r_labels w)));
    reflexivity.
Qed.

Lemma onPullRequest_removed (ls : list label) :
  existsb (str_eqb labelName)
    (map labelText
       (filter (fun l => negb (str_eqb labelName (labelText l))) ls))
  = false.
Proof.
  induction ls as [|l ls IH]; [reflexivity|]. cbn [filter].
  destruct (str_eqb labelName (labelText l)) eqn:E; cbn [negb]; [exact IH|].
  cbn [map existsb]. now rewrite E, IH.
Qed.

(** The label region against the remote side: it completes, touches
    neither the files nor the body, leaves the label on the pull request
    exactly when a migration file is detected, and does nothing when that
    is the case already. *)
Lemma reconcileLabels_remote (am : list FileChange) (pr : PullRequest)
    (w : Remote) (log : list call) :
  labels pr = r_labels w ->
  exists w' log',
    reconcileLabels remote am pr (w, log) = (Normal tt, (w', log')) /\
    r_files w' = r_files w /\ r_body w' = r_body w /\
    onPullRequest labelName w' = detected am /\
    (hasLabel pr = detected am -> w' = w /\ log' = log).
Proof.
  intros Hl. unfold reconcileLabels, hasLabel. rewrite Hl.
  fold (onPullRequest labelName w).
  destruct am as [|f l]; cbn [detected length Nat.ltb Nat.leb];
    destruct (onPullRequest labelName w) eqn:P; cbn [negb].
  - (* remove *)
    unfold tryCatch, await. cbn [fst snd remote]. rewrite P.
    eexists _, _. split; [reflexivity|]. repeat split; try discriminate.
    apply onPullRequest_removed.
  - exists w, log. repeat split. exact P.
  - exists w, log. repeat split. exact P.
  - (* add *)
    unfold bind, ensureLabelExists, tryCatch, await. cbn [fst snd remote].
    destruct (existsb (str_eqb labelName) (r_definitions w)) eqn:D.
    + cbn [fst snd remote]. eexists _, _. split; [reflexivity|].
      repeat split; try discriminate. apply onPullRequest_added.
    + cbn [is404 statusOf Z.eqb Pos.eqb fst snd remote r_definitions].
      rewrite D. cbn [fst snd remote]. eexists _, _. split; [reflexivity|].
      repeat split; try discriminate. apply (onPullRequest_added w).
Qed.

(** One run against the remote side. *)
Lemma run_remote (v : version) (site : Site) (w : Remote) :
  runOf v remote (payload site w) (w, []) =
  match computedBodyOf v (payload site w) (addedMigrations (r_files w)) with
  | Normal new =>
      reconcileLabels remote (addedMigrations (r_files w))
        (pull_request (payload site w))
        (snd (updateBody remote (bodyOf w) new (w, [Call ListFiles])))
  | Throw e => (Throw e, (w, [Call ListFiles]))
  end.
Proof.
  destruct v; cbn [runOf computedBodyOf].
  - unfold FlatList.run, bind at 1, await at 1. cbn [fst snd remote app].
    unfold bind.
    change (oldBody (pull_request (payload site w))) with (bodyOf w).
    rewrite updateBody_remote.
    now destruct (str_eqb _ _).
  - unfold DoUndo.run, bind at 1, await at 1. cbn [fst snd remote app].
    unfold bind at 1.
    destruct (DoUndo.computedBody _ _) as [new|e]; cbn [liftC ret throw];
      [|reflexivity].
    unfold bind.
    change (oldBody (pull_request (payload site w))) with (bodyOf w).
    rewrite updateBody_remote.
    now destruct (str_eqb _ _).
Qed.

Lemma sectionOf_site (v : version) (site : Site) (w w' : Remote)
    (am : list FileChange) :
  sectionOf v (payload site w) am = sectionOf v (payload site w') am.
Proof. destruct v; reflexivity. Qed.

Lemma run_settled (v : version) (site : Site) (w : Remote) :
  settled v site w ->
  runOf v remote (payload site w) (w, []) = (Normal tt, (w, [Call ListFiles])).
Proof.
  intros [Hb Hl]. rewrite run_remote, Hb, updateBody_remote, str_eqb_refl.
  cbn [snd].
  destruct (reconcileLabels_remote (addedMigrations (r_files w))
              (pull_request (payload site w)) w [Call ListFiles] eq_refl)
    as (w' & log' & E & _ & _ & _ & Hq).
  rewrite E. destruct (Hq Hl) as [-> ->]. reflexivity.
Qed.

Lemma run_settles (v : version) (site : Site) (w : Remote) (new : str) :
  ~ occurs START (removeSections (bodyOf w)) ->
  (forall s, summaryOf v (payload site w) (addedMigrations (r_files w)) = Normal s ->
             ~ occurs END_ s) ->
  computedBodyOf v (payload site w) (addedMigrations (r_files w)) = Normal new ->
  exists w1 log1,
    runOf v remote (payload site w) (w, []) = (Normal tt, (w1, log1)) /\
    settled v site w1 /\
    (forall b, In (Call (PullsUpdate b)) log1 -> b = new /\ b <> bodyOf w).
Proof.
  intros Hs Hsum CB. rewrite run_remote, CB, updateBody_remote.
  pose proof CB as CB'. rewrite computedBodyOf_section in CB'.
  destruct (sectionOf v (payload site w) (addedMigrations (r_files w)))
    as [section|e] eqn:S; [|discriminate].
  injection CB' as CB'.
  change (oldBody (pull_request (payload site w))) with (bodyOf w) in CB'.
  assert (Idem : newBody new section = new).
  { rewrite <- CB'. apply newBody_idem; [exact Hs|].
    destruct (sectionOf_shape v _ _ section Hsum S) as [[-> _]|Hd]; auto. }
  assert (Settle : forall wu log,
    r_files wu = r_files w -> r_labels wu = r_labels w -> bodyOf wu = new ->
    (forall b, In (Call (PullsUpdate b)) log -> b = new /\ b <> bodyOf w) ->
    exists w1 log1,
      reconcileLabels remote (addedMigrations (r_files w))
        (pull_request (payload site w)) (wu, log) = (Normal tt, (w1, log1)) /\
      settled v site w1 /\
      (forall b, In (Call (PullsUpdate b)) log1 -> b = new /\ b <> bodyOf w)).
  { intros wu log Hf Hl Hb Hlog.
    destruct (reconcileLabels_remote (addedMigrations (r_files w))
                (pull_request (payload site w)) wu log (eq_sym Hl))
      as (w1 & log1 & E & Hf1 & Hb1 & Hp1 & _).
    exists w1, log1. split; [exact E|]. split.
    - unfold settled. rewrite Hf1, Hf. split; [|exact Hp1].
      rewrite computedBodyOf_section, (sectionOf_site v site w1 w), S.
      change (oldBody (pull_request (payload site w1))) with (bodyOf w1).
      assert (B1 : bodyOf w1 = new) by (unfold bodyOf in *; now rewrite Hb1).
      now rewrite B1, Idem.
    - (* the label region issues no update *)
      intros b Hin. apply Hlog. revert E Hin. clear.
      unfold reconcileLabels, bind, ensureLabelExists, tryCatch, await.
      cbn [fst snd remote].
      repeat match goal with
             | |- context [if ?c then _ else _] => destruct c; cbn [fst snd remote negb is404 statusOf Z.eqb Pos.eqb]
             end;
        intros [= <- <-]; rewrite ?in_app_iff; cbn [In];
        intuition discriminate. }
  destruct (str_eqb (bodyOf w) new) eqn:Q; cbn [snd].
  - apply str_eqb_eq in Q. apply Settle; auto.
    intros b [[=]|[]].
  - apply Settle; auto. cbn [app]. intros b [[=]|[[= <-]|[]]].
    split; [reflexivity|]. apply str_eqb_neq in Q. congruence.
Qed.

(** C2 as stated fails: in both states the second run writes the body
    again. *)
Lemma second_run_rewrites_body :
  ~ secondRunQuiet Flat rentec_app remote_open_marker /\
  ~ secondRunQuiet Flat rentec_app remote_marker_name.
Proof.
  split; intros [_ H]; vm_compute in H; discriminate.
Qed.

(** C2, amended: when the start marker does not occur in the body outside
    the sections that the removal takes out, and the end marker does not
    occur in the rendered summary, a second run on the state the first run
    left changes neither the body nor the labels and issues no write
    request; and the first run issues the body update only with a computed
    body that differs from the original one. *)
Theorem second_run_is_quiet (v : version) (site : Site) (w : Remote) :
  ~ occurs START (removeSections (bodyOf w)) ->
  (forall s, summaryOf v (payload site w) (addedMigrations (r_files w)) = Normal s ->
             ~ occurs END_ s) ->
  secondRunQuiet v site w /\
  (forall b,
      In (Call (PullsUpdate b))
        (snd (snd (runOf v remote (payload site w) (w, [])))) ->
      computedBodyOf v (payload site w) (addedMigrations (r_files w)) = Normal b
      /\ b <> bodyOf w).
Proof.
  intros Hs Hsum. unfold secondRunQuiet.
  destruct (computedBodyOf v (payload site w) (addedMigrations (r_files w)))
    as [new|e] eqn:CB.
  - destruct (run_settles v site w new Hs Hsum CB) as (w1 & log1 & E & St & Hu).
    rewrite E. cbn [fst snd]. rewrite (run_settled v site w1 St). cbn [fst snd].
    split; [now split|]. intros b Hin. destruct (Hu b Hin) as [-> Hne]. now split.
  - rewrite (run_remote v site w), CB. cbn [fst snd].
    rewrite (run_remote v site w), CB. cbn [fst snd].
    split; [now split|]. intros b [[=]|[]].
Qed.

Lemma second_run_is_quiet_witness :
  secondRunQuiet Paired rentec_app remote_pair /\
  map isWrite (snd (snd (runOf Paired remote (payload rentec_app remote_pair)
                           (remote_pair, []))))
  = [false; true; false; true; true].
Proof.
  split; [|reflexivity].
  refine (proj1 (second_run_is_quiet Paired rentec_app remote_pair _ _)).
  - apply indexOf_None. vm_compute. reflexivity.
  - intros s [= <-]. apply indexOf_None. vm_compute. reflexivity.
Defined.

(** * Further properties of the code *)

(** ** The pattern of line 69 *)

Lemma nullable_sound (r : RegExp) : nullable r = true -> matches r [].
Proof.
  induction r as [| |p|r1 IH1 r2 IH2|r1 IH1 r2 IH2|r IH]; cbn [nullable];
    intros H; try discriminate.
  - constructor.
  - apply andb_true_iff in H as [H1 H2].
    change (@nil N) with (@nil N ++ []). constructor; auto.
  - apply orb_true_iff in H as [H|H];
      [apply matches_alt_l | apply matches_alt_r]; auto.
  - constructor.
Qed.

Lemma deriv_sound (r : RegExp) (c : N) (s : str) :
  matches (deriv c r) s -> matches r (c :: s).
Proof.
  revert s; induction r as [| |p|r1 IH1 r2 IH2|r1 IH1 r2 IH2|r IH];
    intros s H; cbn [deriv] in H.
  - inversion H.
  - inversion H.
  - destruct (p c) eqn:P; inversion H; subst. now constructor.
  - assert (L : forall x, matches (Seq (deriv c r1) r2) x ->
                          matches (Seq r1 r2) (c :: x)).
    { intros x Hx. inversion Hx; subst.
      change (c :: s1 ++ s2) with ((c :: s1) ++ s2). constructor; auto. }
    destruct (nullable r1) eqn:Nu; [|now apply L].
    inversion H; subst; [now apply L|].
    change (c :: s) with ([] ++ c :: s).
    constructor; [now apply nullable_sound | now apply IH2].
  - inversion H; subst;
      [apply matches_alt_l | apply matches_alt_r]; auto.
  - inversion H; subst.
    change (c :: s1 ++ s2) with ((c :: s1) ++ s2). constructor; auto.
Qed.

(** [test] accepts only strings the regular expression matches. *)
Lemma test_sound (r : RegExp) (s : str) : test r s = true -> matches r s.
Proof.
  unfold test. revert r; induction s as [|c s IH]; intros r H; cbn [fold_left] in H.
  - now apply nullable_sound.
  - apply deriv_sound. now apply IH.
Qed.

Lemma matches_word_inv (w s : str) : matches (word w) s -> s = w.
Proof.
  revert s; induction w as [|c w IH]; intros s H; cbn [word] in H.
  - now inversion H.
  - inversion H as [| | r1 r2 s1 s2 H1 H2 | | | |]; subst.
    inversion H1 as [|p d Hd| | | | |]; subst.
    apply N.eqb_eq in Hd. subst. cbn [app]. f_equal. now apply IH.
Qed.

Lemma matches_star_class_inv (p : N -> bool) (r : RegExp) (s : str) :
  matches r s -> r = Star (Class p) -> forallb p s = true.
Proof.
  induction 1 as [| | | | | |r0 s1 s2 H1 _ H2 IH2]; intros E; try discriminate;
    [reflexivity|].
  injection E as ->. inversion H1; subst.
  cbn [app forallb]. rewrite IH2 by reflexivity. now rewrite andb_true_r.
Qed.

Lemma matches_class_inv (p : N -> bool) (s : str) :
  matches (Class p) s -> exists c, s = [c] /\ p c = true.
Proof. intros H. inversion H; subst. eauto. Qed.

(** X1: line 69 accepts a base name exactly when it is a run of digits,
    one unit, "do" or "undo", one unit, any text, one unit, "sql", none of
    the three units a line terminator: the dots of the pattern stand for
    any such unit, and neither ".sql" nor a dot after the digits is asked
    for. *)
Theorem regex_accepts_exactly (name : str) :
  test DoUndo.regex name = true <-> acceptedName name.
Proof.
  split.
  - intros T. apply test_sound in T. unfold DoUndo.regex in T.
    inversion T as [| |? ? ds x1 Hds H1| | | |]; subst; clear T.
    inversion Hds as [| |? ? d0 ds' Hd0 Hstar| | | |]; subst; clear Hds.
    apply matches_class_inv in Hd0 as (d & -> & Hd).
    assert (Hall : forallb isDigit ds' = true)
      by (apply (matches_star_class_inv isDigit _ _ Hstar); reflexivity).
    inversion H1 as [| |? ? sc1 x2 Hc1 H2| | | |]; subst; clear H1.
    apply matches_class_inv in Hc1 as (c1 & -> & Hc1).
    inversion H2 as [| |? ? un x3 Hun H3| | | |]; subst; clear H2.
    inversion H3 as [| |? ? sdo x4 Hdo H4| | | |]; subst; clear H3.
    apply (matches_word_inv (lit "do")) in Hdo. subst sdo.
    inversion H4 as [| |? ? sc2 x5 Hc2 H5| | | |]; subst; clear H4.
    apply matches_class_inv in Hc2 as (c2 & -> & Hc2).
    inversion H5 as [| |? ? rest x6 _ H6| | | |]; subst; clear H5.
    inversion H6 as [| |? ? sc3 x7 Hc3 H7| | | |]; subst; clear H6.
    apply matches_class_inv in Hc3 as (c3 & -> & Hc3).
    apply (matches_word_inv (lit "sql")) in H7. subst x7.
    exists ([d] ++ ds'), c1, (un ++ lit "do"), c2, rest, c3.
    split; [now rewrite <- !app_assoc|].
    split; [discriminate|].
    split; [cbn [app forallb]; unfold isDigit at 1; now rewrite Hd, Hall|].
    split.
    { inversion Hun as [| | |? ? ? Hw|? ? ? He| |]; subst.
      - apply (matches_word_inv (lit "un")) in Hw. subst. now right.
      - inversion He; subst. now left. }
    unfold isLineTerminator.
    repeat split; apply negb_true_iff; assumption.
  - intros (digits & c1 & role & c2 & rest & c3 & -> & Hne & Hd & Hr & L1 & L2 & L3).
    apply test_complete. unfold DoUndo.regex.
    assert (Dot : forall c, isLineTerminator c = false -> matches dot [c]).
    { intros c Hc. constructor. unfold isLineTerminator in Hc. now rewrite Hc. }
    constructor.
    + destruct digits as [|d ds]; [now contradiction Hne|].
      cbn [forallb] in Hd. apply andb_true_iff in Hd as [H0 Hs].
      change (d :: ds) with ([d] ++ ds). constructor; [now constructor|].
      now apply matches_star_all.
    + constructor; [now apply Dot|].
      assert (Tail : matches (Seq dot (Seq (Star any) (Seq dot (word (lit "sql")))))
                       ([c2] ++ rest ++ [c3] ++ lit "sql")).
      { constructor; [now apply Dot|].
        constructor; [now apply matches_star_all; apply forallb_forall|].
        constructor; [now apply Dot | apply matches_word]. }
      destruct Hr as [-> | ->].
      * change (lit "do" ++ [c2] ++ rest ++ [c3] ++ lit "sql")
          with ([] ++ lit "do" ++ [c2] ++ rest ++ [c3] ++ lit "sql").
        constructor; [apply matches_alt_r; constructor|].
        constructor; [apply matches_word | exact Tail].
      * change (lit "undo" ++ [c2] ++ rest ++ [c3] ++ lit "sql")
          with (lit "un" ++ lit "do" ++ [c2] ++ rest ++ [c3] ++ lit "sql").
        constructor; [apply matches_alt_l; apply matches_word|].
        constructor; [apply matches_word | exact Tail].
Qed.

(** ** The grouping of lines 68-79 *)

Lemma get_set_same {V} (k : str) (v : V) (o : obj V) : get k (set k v o) = Some v.
Proof.
  induction o as [|[k' v'] o IH]; cbn [set get].
  - now rewrite str_eqb_refl.
  - destruct (str_eqb k' k) eqn:E; cbn [get]; now rewrite E.
Qed.

Lemma get_set_other {V} (k k' : str) (v : V) (o : obj V) :
  k' <> k -> get k' (set k v o) = get k' o.
Proof.
  intros Hne. induction o as [|[k0 v0] o IH]; cbn [set get].
  - assert (E : str_eqb k k' = false) by (apply str_eqb_neq; congruence).
    now rewrite E.
  - destruct (str_eqb k0 k) eqn:E; cbn [get]; [|now rewrite IH].
    apply str_eqb_eq in E. subst k0.
    assert (E : str_eqb k k' = false) by (apply str_eqb_neq; congruence).
    now rewrite E.
Qed.

Lemma get_None_keys {V} (k : str) (o : obj V) : get k o = None <-> ~ In k (keys o).
Proof.
  induction o as [|[k' v'] o IH]; cbn [get keys map fst In]; [tauto|].
  destruct (str_eqb k' k) eqn:E.
  - apply str_eqb_eq in E. split; [discriminate | intros H; exfalso; auto].
  - apply str_eqb_neq in E. rewrite IH. unfold keys. tauto.
Qed.

Lemma keys_set {V} (k : str) (v : V) (o : obj V) :
  keys (set k v o) = match get k o with Some _ => keys o | None => keys o ++ [k] end.
Proof.
  induction o as [|[k' v'] o IH]; cbn [set get keys map fst app]; [reflexivity|].
  destruct (str_eqb k' k) eqn:E; cbn [keys map fst]; [reflexivity|].
  fold (keys (set k v o)). rewrite IH. fold (keys o).
  now destruct (get k o).
Qed.

Lemma addPair_accepted (pairs : obj (obj FileChange)) (f : FileChange) :
  accepted f ->
  DoUndo.addPair pairs f
  = set (timestampOf f)
      (DoUndo.assign (roleOf f) f (groupOf (timestampOf f) pairs)) pairs.
Proof.
  unfold accepted, DoUndo.addPair, timestampOf, roleOf, groupOf, nameOf.
  intros ->. reflexivity.
Qed.

(** X2: storing an accepted file (lines 75-77) under a role other than
    "__proto__" makes it the own entry of that role in the group of its
    timestamp, whatever was stored there before (the later file wins);
    under the role "__proto__" it stores no own entry and leaves the own
    entries of the group as they were.  In both cases no own entry of
    another role and no other group changes. *)
Theorem addPair_overwrites_one_entry (pairs : obj (obj FileChange)) (f : FileChange) :
  accepted f ->
  (roleOf f <> lit "__proto__" ->
   get (roleOf f) (groupOf (timestampOf f) (DoUndo.addPair pairs f)) = Some f) /\
  (roleOf f = lit "__proto__" ->
   groupOf (timestampOf f) (DoUndo.addPair pairs f)
   = groupOf (timestampOf f) pairs) /\
  (forall role, role <> roleOf f ->
     get role (groupOf (timestampOf f) (DoUndo.addPair pairs f))
     = get role (groupOf (timestampOf f) pairs)) /\
  (forall timestamp, timestamp <> timestampOf f ->
     get timestamp (DoUndo.addPair pairs f) = get timestamp pairs).
Proof.
  intros Ha. rewrite (addPair_accepted pairs f Ha).
  assert (G : forall g, groupOf (timestampOf f) (set (timestampOf f) g pairs) = g)
    by (intros g; unfold groupOf; now rewrite get_set_same).
  rewrite !G. unfold DoUndo.assign.
  destruct (str_eqb (roleOf f) (lit "__proto__")) eqn:P.
  - apply str_eqb_eq in P. repeat split.
    + intros H. now contradiction H.
    + intros t Ht. now apply get_set_other.
  - apply str_eqb_neq in P. repeat split.
    + intros _. apply get_set_same.
    + intros H. now contradiction P.
    + intros role Hr. now apply get_set_other.
    + intros t Ht. now apply get_set_other.
Qed.

Lemma addPair_overwrites_one_entry_witness :
  get (lit "do")
    (groupOf (lit "20240101")
       (DoUndo.addPair (DoUndo.pairsOf [do_add_col; undo_add_col]) do_add_col_again))
  = Some do_add_col_again /\
  get (lit "undo")
    (groupOf (lit "20240101")
       (DoUndo.addPair (DoUndo.pairsOf [do_add_col; undo_add_col]) do_add_col_again))
  = Some undo_add_col.
Proof.
  destruct (addPair_overwrites_one_entry
              (DoUndo.pairsOf [do_add_col; undo_add_col]) do_add_col_again eq_refl)
    as (H1 & _ & H2 & _).
  split.
  - refine (H1 _). intros H. vm_compute in H. discriminate.
  - refine (eq_trans (H2 (lit "undo") _) eq_refl).
    intros H. vm_compute in H. discriminate.
Defined.

Lemma keys_addPair (pairs : obj (obj FileChange)) (f : FileChange) :
  keys (DoUndo.addPair pairs f)
  = if test DoUndo.regex (nameOf f) then
      match get (timestampOf f) pairs with
      | Some _ => keys pairs
      | None => keys pairs ++ [timestampOf f]
      end
    else keys pairs.
Proof.
  destruct (test DoUndo.regex (nameOf f)) eqn:T.
  - rewrite (addPair_accepted pairs f T). apply keys_set.
  - unfold nameOf in T. now rewrite (addPair_no_match pairs f T).
Qed.

Lemma keys_fold_addPair (files : list FileChange) (pairs : obj (obj FileChange)) :
  NoDup (keys pairs) ->
  NoDup (keys (fold_left DoUndo.addPair files pairs)) /\
  (forall k, In k (keys (fold_left DoUndo.addPair files pairs)) <->
             In k (keys pairs) \/
             exists f, In f files /\ accepted f /\ timestampOf f = k).
Proof.
  revert pairs; induction files as [|f files IH]; intros pairs Hnd; cbn [fold_left].
  - split; [exact Hnd|]. intros k. split; [auto|].
    intros [H|(f & [] & _)]. exact H.
  - assert (Hnd' : NoDup (keys (DoUndo.addPair pairs f))).
    { rewrite keys_addPair. destruct (test _ _); [|exact Hnd].
      destruct (get (timestampOf f) pairs) eqn:G; [exact Hnd|].
      apply get_None_keys in G.
      apply NoDup_app; [exact Hnd | repeat constructor; auto |].
      intros x Hx [<-|[]]. contradiction. }
    destruct (IH _ Hnd') as [N M]. split; [exact N|].
    intros k. rewrite M, keys_addPair. unfold accepted.
    destruct (test DoUndo.regex (nameOf f)) eqn:T.
    + destruct (get (timestampOf f) pairs) eqn:G.
      * split.
        -- intros [H|(g & Hg & Ag & Tg)]; [now left|]. right. exists g. cbn [In]. auto.
        -- intros [H|(g & [Eq|Hg] & Ag & Tg)]; [now left| |right; eauto].
           left. subst g k.
           destruct (In_dec (list_eq_dec N.eq_dec) (timestampOf f) (keys pairs))
             as [I|I]; [exact I|]. apply get_None_keys in I. congruence.
      * rewrite in_app_iff. cbn [In]. split.
        -- intros [[H|[<-|[]]]|(g & Hg & Ag & Tg)]; [now left| |].
           ++ right. exists f. auto.
           ++ right. exists g. auto.
        -- intros [H|(g & [Eq|Hg] & Ag & Tg)]; [now left; left| |right; eauto].
           left. right. left. now subst g.
    + split.
      * intros [H|(g & Hg & Ag & Tg)]; [now left|]. right. exists g. cbn [In]. auto.
      * intros [H|(g & [Eq|Hg] & Ag & Tg)]; [now left| |right; eauto].
        subst g. congruence.
Qed.

Lemma keys_pairsOf (files : list FileChange) :
  NoDup (keys (DoUndo.pairsOf files)) /\
  (forall k, In k (keys (DoUndo.pairsOf files)) <->
             exists f, In f files /\ accepted f /\ timestampOf f = k).
Proof.
  destruct (keys_fold_addPair files [] (NoDup_nil _)) as [N M].
  split; [exact N|]. intros k. unfold DoUndo.pairsOf. rewrite M.
  cbn [keys map In]. tauto.
Qed.

(** X3: the keys of the grouped mapping are, without repetition, the
    timestamps of the accepted files: the text before the first dot of
    their base names. *)
Theorem timestamps_of_accepted_files (files : list FileChange) :
  NoDup (keys (DoUndo.pairsOf files)) /\
  (forall k, In k (keys (DoUndo.pairsOf files)) <->
             exists f, In f files /\ accepted f /\ timestampOf f = k).
Proof.
  destruct (keys_fold_addPair files [] (NoDup_nil _)) as [N M].
  split; [exact N|]. intros k. unfold DoUndo.pairsOf. rewrite M.
  cbn [keys map In]. tauto.
Qed.

Lemma insertSorted_length (k : str) (l : list str) :
  length (insertSorted k l) = S (length l).
Proof.
  induction l as [|x l IH]; [reflexivity|].
  cbn [insertSorted]. destruct (str_ltb k x); cbn [length]; auto.
Qed.

Lemma sort_length (l : list str) : length (sort l) = length l.
Proof.
  induction l as [|x l IH]; [reflexivity|].
  cbn [sort fold_right]. fold (sort l). now rewrite insertSorted_length, IH.
Qed.

Lemma sort_singleton (l : list str) (t : str) : sort l = [t] <-> l = [t].
Proof.
  split.
  - intros H. pose proof (sort_length l) as L. rewrite H in L.
    destruct l as [|x [|y l]]; try discriminate. exact H.
  - intros ->. reflexivity.
Qed.

(** X4: the sorted key list of line 81 has exactly one element -- the
    case in which line 85 renders the lone format -- exactly when some
    detected file is accepted and all accepted files have the same
    timestamp. *)
Theorem one_timestamp_iff (files : list FileChange) :
  (exists t, DoUndo.timestamps files = [t]) <->
  (exists f, In f files /\ accepted f) /\
  (forall f g, In f files -> In g files -> accepted f -> accepted g ->
               timestampOf f = timestampOf g).
Proof.
  destruct (keys_pairsOf files) as [Nd M]. unfold DoUndo.timestamps. split.
  - intros [t Ht]. apply (proj1 (sort_singleton _ _)) in Ht.
    assert (Only : forall f, In f files -> accepted f -> timestampOf f = t).
    { intros f Hf Af.
      assert (I : In (timestampOf f) (keys (DoUndo.pairsOf files)))
        by (apply M; eauto).
      rewrite Ht in I. destruct I as [<-|[]]. reflexivity. }
    split.
    + destruct (proj1 (M t)) as (f & Hf & Af & _); [rewrite Ht; now left|eauto].
    + intros f g Hf Hg Af Ag. now rewrite (Only f), (Only g).
  - intros [(f & Hf & Af) Same]. exists (timestampOf f). apply sort_singleton.
    assert (All : forall k, In k (keys (DoUndo.pairsOf files)) -> k = timestampOf f).
    { intros k Hk. apply M in Hk as (g & Hg & Ag & <-). now apply Same. }
    assert (I : In (timestampOf f) (keys (DoUndo.pairsOf files)))
      by (apply M; eauto).
    destruct (keys (DoUndo.pairsOf files)) as [|k [|k' l]].
    + destruct I.
    + f_equal. apply All. now left.
    + exfalso. inversion Nd as [|? ? Hnot _]; subst. apply Hnot.
      rewrite (All k), (All k'); [now left | right; now left | now left].
Qed.

(** X5: rendering (line 26) fails in one way only: with a TypeError,
    when the grouped mapping has exactly one timestamp and its group lacks
    the "do" or the "undo" entry.  Otherwise it returns the lone format
    (one timestamp, both entries) or the flat list (any other number of
    timestamps). *)
Theorem rendering_fails_only_on_incomplete_pair (ctx : Context)
    (addedMigrations : list FileChange) :
  match DoUndo.formatMigrations ctx addedMigrations with
  | Throw e =>
      e = TypeError /\
      exists t g, DoUndo.pairsOf addedMigrations = [(t, g)] /\
                  (get (lit "do") g = None \/ get (lit "undo") g = None)
  | Normal s =>
      (exists t g d u,
          DoUndo.pairsOf addedMigrations = [(t, g)] /\
          get (lit "do") g = Some d /\ get (lit "undo") g = Some u /\
          DoUndo.formatLoneMigration ctx g = Normal s) \/
      (length (keys (DoUndo.pairsOf addedMigrations)) <> 1 /\
       s = DoUndo.formatMultipleMigrations ctx addedMigrations)
  end.
Proof.
  unfold DoUndo.formatMigrations.
  destruct (sort (keys (DoUndo.pairsOf addedMigrations))) as [|t [|t' l]] eqn:S.
  - right. split; [|reflexivity]. rewrite <- sort_length, S. discriminate.
  - apply (proj1 (sort_singleton _ _)) in S.
    destruct (DoUndo.pairsOf addedMigrations) as [|[k g] [|p ps]];
      try discriminate.
    injection S as ->. cbn [get]. rewrite str_eqb_refl.
    unfold DoUndo.formatLoneMigration.
    destruct (get (lit "do") g) as [d|] eqn:D.
    + destruct (get (lit "undo") g) as [u|] eqn:U.
      * left. exists t, g, d, u. repeat split; auto.
        unfold DoUndo.formatLoneMigration. now rewrite D, U.
      * split; [reflexivity|]. exists t, g. auto.
    + split; [reflexivity|]. exists t, g. auto.
  - right. split; [|reflexivity]. rewrite <- sort_length, S. discriminate.
Qed.

(** ** The body reconciler on any body *)

Lemma trimEnd_keeps (a : str) (c : N) :
  isWhiteSpace c = false -> trimEnd (a ++ [c]) = a ++ [c].
Proof.
  intros Hc. induction a as [|x a IH].
  - cbn [app]. rewrite trimEnd_cons. cbn. now rewrite Hc.
  - cbn [app]. rewrite trimEnd_cons, IH. now destruct a.
Qed.

Lemma section_ends_with_marker (formattedMigrations : str) :
  exists a, DoUndo.section formattedMigrations = a ++ [62%N].
Proof.
  exists (START ++ [NL] ++ heading ++ [NL; NL] ++ formattedMigrations
            ++ [NL; NL] ++ removelast END_).
  unfold DoUndo.section. rewrite <- !app_assoc. reflexivity.
Qed.

Lemma newBody_trimmed (old section : str) :
  section = [] \/ (exists a, section = a ++ [62%N]) ->
  trimEnd (newBody old section) = newBody old section.
Proof.
  intros [->|(a & ->)].
  - rewrite newBody_nil_r. apply bodySans_fixed.
  - rewrite newBody_unfold. destruct (bodySansDbChanges old) as [|r0 r].
    + now apply trimEnd_keeps.
    + destruct (a ++ [62%N]) as [|s0 s] eqn:E; [now destruct a|].
      rewrite <- E. rewrite !app_assoc. now apply trimEnd_keeps.
Qed.

(** X6: whatever the old body and the files, the body a version computes
    has no white space at its end (so a body that ends with a line feed
    is always rewritten). *)
Theorem computed_body_has_no_trailing_space (v : version) (ctx : Context)
    (addedMigrations : list FileChange) (new : str) :
  computedBodyOf v ctx addedMigrations = Normal new -> trimEnd new = new.
Proof.
  rewrite computedBodyOf_section.
  destruct (sectionOf v ctx addedMigrations) as [section|e] eqn:S; [|discriminate].
  intros [= <-]. apply newBody_trimmed.
  destruct v; cbn [sectionOf] in S.
  - injection S as <-. rewrite flat_section_shape.
    destruct addedMigrations; [now left|]. right. apply section_ends_with_marker.
  - destruct (DoUndo.formatMigrations ctx addedMigrations); [|discriminate].
    injection S as <-. right. apply section_ends_with_marker.
Qed.

Lemma computed_body_has_no_trailing_space_witness :
  trimEnd (lit "Adds a column.") = lit "Adds a column.".
Proof.
  exact (computed_body_has_no_trailing_space Flat body_trailing_newline []
           (lit "Adds a column.") eq_refl).
Defined.

Lemma replaceFrom_shrinks (op cl s : str) (k : nat) :
  length (replaceFrom op cl k s) + countFrom op cl k s <= length s.
Proof.
  revert k; induction s as [|c s IH]; intros [|k];
    cbn [replaceFrom countFrom length]; try lia.
  - destruct (startsWith (c :: s) op).
    + destruct (indexOf _ cl) as [j|].
      * specialize (IH (length op + j + length cl - 1)). lia.
      * specialize (IH 0). cbn [length]. lia.
    + specialize (IH 0). cbn [length]. lia.
  - specialize (IH k). lia.
Qed.

(** X7: the replace of lines 31-32 returns the body as it is exactly when
    the body holds no delimited section, and never returns a longer
    text. *)
Theorem removal_changes_only_bodies_with_sections (s : str) :
  (removeSections s = s <-> countSections s = 0) /\
  length (removeSections s) + countSections s <= length s.
Proof.
  pose proof (replaceFrom_shrinks START END_ s 0) as L.
  fold (removeSections s) in L. fold (countSections s) in L.
  split; [|exact L]. split.
  - intros E. rewrite E in L. lia.
  - apply removeSections_none.
Qed.

(** X8: the flat-list version renders a section exactly when a migration
    file is detected: the test [lines.length > 0] of line 36 never fails
    for a non-empty list. *)
Theorem flat_section_iff_detected (ctx : Context) (files : list FileChange) :
  FlatList.section ctx (addedMigrations files) = [] <-> addedMigrations files = [].
Proof.
  rewrite flat_section_shape. destruct (addedMigrations files); split;
    try reflexivity; discriminate.
Qed.

(** ** Base names *)

Lemma split_parts (sep : N) (s : str) :
  exists ws w,
    split sep s = ws ++ [w] /\
    s = concat (map (fun x => x ++ [sep]) ws) ++ w /\
    ~ In sep w.
Proof.
  induction s as [|c s (ws & w & E & Es & Hw)].
  - exists [], []. repeat split. intros [].
  - cbn [split]. destruct (N.eqb c sep) eqn:C.
    + apply N.eqb_eq in C. subst c. exists ([] :: ws), w.
      rewrite E. repeat split; [|exact Hw]. cbn [map concat app]. now rewrite <- Es.
    + apply N.eqb_neq in C. rewrite E. destruct ws as [|x ws].
      * exists [], (c :: w). cbn [app map concat] in *. subst s.
        repeat split. intros [H|H]; [now apply C | now apply Hw].
      * exists ((c :: x) :: ws), w. cbn [app map concat] in *.
        repeat split; [|exact Hw]. rewrite Es. now rewrite <- !app_assoc.
Qed.

(** X9: [filename.split("/").pop()] is the text after the last "/" of
    the path (the whole path when it holds none): the path is a directory
    part, empty or ending with "/", followed by the base name, and the
    base name holds no "/". *)
Theorem basename_is_last_component (path : str) :
  exists dir,
    path = dir ++ basename path /\
    (dir = [] \/ exists d, dir = d ++ [47%N]) /\
    ~ In 47%N (basename path).
Proof.
  destruct (split_parts 47%N path) as (ws & w & E & Es & Hw).
  unfold basename. rewrite E, last_last.
  exists (concat (map (fun x => x ++ [47%N]) ws)). repeat split; auto.
  destruct ws as [|x0 ws0]; [now left|]. right.
  destruct (@exists_last _ (x0 :: ws0)) as (ws' & x & Heq); [discriminate|].
  rewrite Heq. exists (concat (map (fun x => x ++ [47%N]) ws') ++ x).
  rewrite map_app, concat_app. cbn [map concat]. now rewrite app_nil_r, app_assoc.
Qed.

(** ** One run against any client *)

(** The steps of [run] in their order: the listing, the rendering, the
    update of a changed body, the label region. *)
Lemma run_any_client (v : version) (W : Type)
    (github : forall A, request A -> W -> completion A * W)
    (ctx : Context) (w : W) (log : list call) :
  runOf v github ctx (w, log) =
  match github _ ListFiles w with
  | (Throw e, w1) => (Throw e, (w1, log ++ [Call ListFiles]))
  | (Normal files, w1) =>
      match computedBodyOf v ctx (addedMigrations files) with
      | Throw e => (Throw e, (w1, log ++ [Call ListFiles]))
      | Normal new =>
          if str_eqb (oldBody (pull_request ctx)) new then
            reconcileLabels github (addedMigrations files) (pull_request ctx)
              (w1, log ++ [Call ListFiles])
          else
            match github _ (PullsUpdate new) w1 with
            | (Normal _, w2) =>
                reconcileLabels github (addedMigrations files) (pull_request ctx)
                  (w2, (log ++ [Call ListFiles]) ++ [Call (PullsUpdate new)])
            | (Throw e, w2) =>
                (Throw e, (w2, (log ++ [Call ListFiles]) ++ [Call (PullsUpdate new)]))
            end
      end
  end.
Proof.
  destruct v; cbn [runOf computedBodyOf].
  - unfold FlatList.run, bind at 1, await at 1. cbn [fst snd].
    destruct (github _ ListFiles w) as [[files|e] w1]; [|reflexivity].
    unfold bind, updateBody.
    destruct (str_eqb _ _); cbn [negb]; [reflexivity|].
    unfold await. cbn [fst snd].
    now destruct (github _ (PullsUpdate _) w1) as [[[]|e] w2].
  - unfold DoUndo.run, bind at 1, await at 1. cbn [fst snd].
    destruct (github _ ListFiles w) as [[files|e] w1]; [|reflexivity].
    unfold bind at 1.
    destruct (DoUndo.computedBody ctx (addedMigrations files)) as [new|e];
      cbn [liftC ret throw]; [|reflexivity].
    unfold bind, updateBody.
    destruct (str_eqb _ _); cbn [negb]; [reflexivity|].
    unfold await. cbn [fst snd].
    now destruct (github _ (PullsUpdate _) w1) as [[[]|e] w2].
Qed.

(** The label region adds label requests to the log, and nothing else. *)
Lemma reconcileLabels_log (W : Type)
    (github : forall A, request A -> W -> completion A * W)
    (am : list FileChange) (pr : PullRequest) (w : W) (log : list call) :
  exists extra,
    requestsOf (reconcileLabels github am pr (w, log)) = log ++ extra /\
    forallb isLabelRequest extra = true.
Proof.
  unfold requestsOf, reconcileLabels, bind, ensureLabelExists, tryCatch, await.
  cbn [fst snd].
  destruct (0 <? length am); destruct (hasLabel pr); cbn [negb fst snd].
  - exists []. now rewrite app_nil_r.
  - destruct (github unit (GetLabel labelName) w) as [[[]|e] w1]; cbn [fst snd].
    + destruct (github unit (AddLabels [labelName]) w1) as [r w2]. cbn [fst snd].
      eexists [_; _]. rewrite <- app_assoc. split; reflexivity.
    + destruct (is404 e); cbn [fst snd].
      * destruct (github unit (CreateLabel _ _ _) w1) as [[[]|e'] w2]; cbn [fst snd].
        -- destruct (github unit (AddLabels [labelName]) w2) as [r w3]. cbn [fst snd].
           eexists [_; _; _]. rewrite <- !app_assoc. split; reflexivity.
        -- eexists [_; _]. rewrite <- app_assoc. split; reflexivity.
      * eexists [_]. split; reflexivity.
  - destruct (github unit (RemoveLabel labelName) w) as [[[]|e] w1]; cbn [fst snd].
    + eexists [_]. split; reflexivity.
    + destruct (is404 e); cbn [negb fst snd]; eexists [_]; split; reflexivity.
  - exists []. now rewrite app_nil_r.
Qed.

(** X10: when the listing of the files fails, the run ends with that
    failure and makes no other request. *)
Theorem listing_failure_stops_the_run (v : version) (W : Type)
    (github : forall A, request A -> W -> completion A * W)
    (ctx : Context) (w w1 : W) (log : list call) (e : exn) :
  github _ ListFiles w = (Throw e, w1) ->
  runOf v github ctx (w, log) = (Throw e, (w1, log ++ [Call ListFiles])).
Proof. intros H. now rewrite run_any_client, H. Qed.

(** X11: when the update of the body fails, the run ends with that
    failure and the label region is not entered: no label request is
    made, whether or not a migration file is detected. *)
Theorem update_failure_skips_the_labels (v : version) (W : Type)
    (github : forall A, request A -> W -> completion A * W)
    (ctx : Context) (w w1 w2 : W) (log : list call)
    (files : list FileChange) (new : str) (e : exn) :
  github _ ListFiles w = (Normal files, w1) ->
  computedBodyOf v ctx (addedMigrations files) = Normal new ->
  new <> oldBody (pull_request ctx) ->
  github _ (PullsUpdate new) w1 = (Throw e, w2) ->
  runOf v github ctx (w, log)
  = (Throw e, (w2, log ++ [Call ListFiles; Call (PullsUpdate new)])).
Proof.
  intros Hl Hc Hne Hu. rewrite run_any_client, Hl, Hc.
  assert (E : str_eqb (oldBody (pull_request ctx)) new = false)
    by (apply str_eqb_neq; congruence).
  now rewrite E, Hu, <- app_assoc.
Qed.

Lemma update_failure_skips_the_labels_witness :
  runOf Flat github_read_only (ctx_plain None) (tt, [])
  = (Throw (RequestError (Some 403%Z)),
     (tt, [Call ListFiles;
           Call (PullsUpdate (FlatList.computedBody (ctx_plain None) [file_0001]))])).
Proof.
  refine (update_failure_skips_the_labels Flat unit github_read_only
            (ctx_plain None) tt tt tt [] [file_0001]
            (FlatList.computedBody (ctx_plain None) [file_0001])
            (RequestError (Some 403%Z)) eq_refl eq_refl _ eq_refl).
  intros H. vm_compute in H. discriminate.
Defined.

Lemma listing_failure_stops_the_run_witness :
  runOf Paired github_down (ctx_plain None) (tt, [])
  = (Throw (RequestError (Some 503%Z)), (tt, [Call ListFiles])).
Proof.
  exact (listing_failure_stops_the_run Paired unit github_down (ctx_plain None)
           tt tt [] (RequestError (Some 503%Z)) eq_refl).
Defined.

(** X12: in the do/undo version a rendering that throws ends the run
    right after the listing: neither the body nor a label is written. *)
Theorem rendering_error_precedes_every_write (W : Type)
    (github : forall A, request A -> W -> completion A * W)
    (ctx : Context) (w w1 : W) (log : list call)
    (files : list FileChange) (e : exn) :
  github _ ListFiles w = (Normal files, w1) ->
  DoUndo.formatMigrations ctx (addedMigrations files) = Throw e ->
  DoUndo.run github ctx (w, log) = (Throw e, (w1, log ++ [Call ListFiles])).
Proof.
  intros Hl Hf. change (DoUndo.run github ctx) with (runOf Paired github ctx).
  rewrite run_any_client, Hl. cbn [computedBodyOf]. unfold DoUndo.computedBody.
  now rewrite Hf.
Qed.

Lemma rendering_error_precedes_every_write_witness :
  DoUndo.run remote (payload rentec_app remote_lone_do) (remote_lone_do, [])
  = (Throw TypeError, (remote_lone_do, [Call ListFiles])).
Proof.
  exact (rendering_error_precedes_every_write Remote remote
           (payload rentec_app remote_lone_do) remote_lone_do remote_lone_do []
           [do_add_col] TypeError eq_refl eq_refl).
Defined.

Lemma computedBody_flat (ctx : Context) (am : list FileChange) :
  am <> [] -> length (DoUndo.timestamps am) <> 1 ->
  DoUndo.computedBody ctx am = Normal (FlatList.computedBody ctx am).
Proof.
  intros Hne Hts. unfold DoUndo.computedBody.
  rewrite (formatMigrations_flat ctx _ Hts).
  unfold DoUndo.formatMultipleMigrations. rewrite lines_agree.
  destruct am as [|f l]; [now contradiction Hne|].
  rewrite lines_nonempty. unfold FlatList.computedBody. f_equal. f_equal.
  now rewrite flat_section_shape.
Qed.

(** X13: when the listing returns at least one migration file and the
    accepted names fall into no or into several timestamps, the two
    versions run alike against any client: the same completion, the same
    remote state, the same requests. *)
Theorem versions_run_alike_on_flat_list (W : Type)
    (github : forall A, request A -> W -> completion A * W)
    (ctx : Context) (w w1 : W) (log : list call) (files : list FileChange) :
  github _ ListFiles w = (Normal files, w1) ->
  addedMigrations files <> [] ->
  length (DoUndo.timestamps (addedMigrations files)) <> 1 ->
  DoUndo.run github ctx (w, log) = FlatList.run github ctx (w, log).
Proof.
  intros Hl Hne Hts.
  change (DoUndo.run github ctx) with (runOf Paired github ctx).
  change (FlatList.run github ctx) with (runOf Flat github ctx).
  rewrite !run_any_client, Hl. cbn [computedBodyOf].
  now rewrite (computedBody_flat ctx _ Hne Hts).
Qed.

Lemma versions_run_alike_on_flat_list_witness :
  DoUndo.run remote (payload rentec_app remote_two_timestamps)
    (remote_two_timestamps, [])
  = FlatList.run remote (payload rentec_app remote_two_timestamps)
      (remote_two_timestamps, []).
Proof.
  refine (versions_run_alike_on_flat_list Remote remote
            (payload rentec_app remote_two_timestamps)
            remote_two_timestamps remote_two_timestamps []
            (r_files remote_two_timestamps) eq_refl _ _).
  - discriminate.
  - vm_compute. discriminate.
Defined.

(** X14: a run makes at most one update request, and only with the body
    it computed from the listed files, which then differs from the body
    of the payload. *)
Theorem at_most_one_update (v : version) (W : Type)
    (github : forall A, request A -> W -> completion A * W)
    (ctx : Context) (w : W) :
  length (filter isUpdate (requestsOf (runOf v github ctx (w, [])))) <= 1 /\
  (forall b,
      In (Call (PullsUpdate b)) (requestsOf (runOf v github ctx (w, []))) ->
      exists files w1,
        github _ ListFiles w = (Normal files, w1) /\
        computedBodyOf v ctx (addedMigrations files) = Normal b /\
        b <> oldBody (pull_request ctx)).
Proof.
  assert (NoUpd : forall extra, forallb isLabelRequest extra = true ->
            filter isUpdate extra = [] /\
            forall b, ~ In (Call (PullsUpdate b)) extra).
  { induction extra as [|c extra IH]; cbn [forallb filter In]; [tauto|].
    rewrite andb_true_iff. intros [Hc He]. destruct (IH He) as [F N].
    split.
    - destruct c as [A r]; destruct r; try discriminate; exact F.
    - intros b [->|H]; [discriminate|]. now apply (N b). }
  rewrite run_any_client. cbn [app].
  destruct (github _ ListFiles w) as [[files|e] w1];
    [|split; [cbn; lia | intros b [[=]|[]]]].
  destruct (computedBodyOf v ctx (addedMigrations files)) as [new|e] eqn:C;
    [|split; [cbn; lia | intros b [[=]|[]]]].
  destruct (str_eqb (oldBody (pull_request ctx)) new) eqn:Q.
  - destruct (reconcileLabels_log W github (addedMigrations files)
                (pull_request ctx) w1 [Call ListFiles]) as (extra & -> & Hx).
    destruct (NoUpd extra Hx) as [F N]. cbn [app filter isUpdate]. rewrite F.
    split; [cbn; lia|]. intros b [[=]|H]. now apply N in H.
  - apply str_eqb_neq in Q.
    destruct (github _ (PullsUpdate new) w1) as [[[]|e] w2].
    + destruct (reconcileLabels_log W github (addedMigrations files)
                  (pull_request ctx) w2 [Call ListFiles; Call (PullsUpdate new)])
        as (extra & -> & Hx).
      destruct (NoUpd extra Hx) as [F N]. cbn [app filter isUpdate]. rewrite F.
      split; [cbn; lia|]. intros b [[=]|[[= <-]|H]]; [|now apply N in H].
      exists files, w1. repeat split; congruence.
    + split; [cbn; lia|]. intros b [[=]|[[= <-]|[]]].
      exists files, w1. repeat split; congruence.
Qed.

Lemma section_holds_end_marker (old formattedMigrations : str) :
  occurs END_ (newBody old (DoUndo.section formattedMigrations)).
Proof.
  rewrite newBody_unfold.
  assert (O : occurs END_ (DoUndo.section formattedMigrations)).
  { exists (START ++ [NL] ++ heading ++ [NL; NL] ++ formattedMigrations ++ [NL; NL]), [].
    unfold DoUndo.section. now rewrite app_nil_r, <- !app_assoc. }
  destruct (bodySansDbChanges old) as [|r0 r]; [exact O|].
  destruct (DoUndo.section formattedMigrations) eqn:E; [discriminate|].
  apply (occurs_app_r END_ (r0 :: r)), (occurs_app_r END_ [NL; NL]), O.
Qed.

(** X15: in the do/undo version, a pull request without a detected file
    whose body does not hold the end marker has its body rewritten: right
    after the listing the run requests an update that appends the section
    with the heading alone.  (Line 27 wraps the summary whatever it is.) *)
Theorem paired_run_writes_heading_only (W : Type)
    (github : forall A, request A -> W -> completion A * W)
    (ctx : Context) (w w1 : W) (files : list FileChange) :
  github _ ListFiles w = (Normal files, w1) ->
  addedMigrations files = [] ->
  ~ occurs END_ (oldBody (pull_request ctx)) ->
  exists extra,
    requestsOf (DoUndo.run github ctx (w, []))
    = [Call ListFiles;
       Call (PullsUpdate
               (newBody (oldBody (pull_request ctx))
                  (START ++ [NL] ++ lit "### Database changes"
                     ++ [NL; NL; NL; NL] ++ END_)))] ++ extra.
Proof.
  intros Hl Ham Hold.
  change (DoUndo.run github ctx) with (runOf Paired github ctx).
  rewrite run_any_client, Hl, Ham.
  change (computedBodyOf Paired ctx [])
    with (Normal (newBody (oldBody (pull_request ctx)) (DoUndo.section []))).
  cbv iota beta.
  change (START ++ [NL] ++ lit "### Database changes" ++ [NL; NL; NL; NL] ++ END_)
    with (DoUndo.section []).
  assert (Q : str_eqb (oldBody (pull_request ctx))
                (newBody (oldBody (pull_request ctx)) (DoUndo.section [])) = false).
  { apply str_eqb_neq. intros E. apply Hold. rewrite E.
    apply section_holds_end_marker. }
  rewrite Q.
  destruct (github _ (PullsUpdate _) w1) as [[[]|e] w2].
  - destruct (reconcileLabels_log W github [] (pull_request ctx) w2
                ([] ++ [Call ListFiles] ++ [Call (PullsUpdate
                   (newBody (oldBody (pull_request ctx)) (DoUndo.section [])))]))
      as (extra & E & _).
    exists extra. exact E.
  - exists []. reflexivity.
Qed.

Lemma paired_run_writes_heading_only_witness :
  exists extra,
    requestsOf (DoUndo.run remote (payload rentec_app remote_untouched)
                  (remote_untouched, []))
    = [Call ListFiles;
       Call (PullsUpdate
               (lit "Fixes a typo." ++ [NL; NL] ++ START ++ [NL]
                  ++ lit "### Database changes" ++ [NL; NL; NL; NL] ++ END_))]
      ++ extra.
Proof.
  refine (paired_run_writes_heading_only Remote remote
            (payload rentec_app remote_untouched)
            remote_untouched remote_untouched [] eq_refl eq_refl _).
  apply indexOf_None. vm_compute. reflexivity.
Defined.

(** X16: against a remote side that applies every request, a run that
    completes leaves the label on the pull request exactly when a
    migration file is detected, and leaves the computed body as the body;
    the only run that does not complete is a do/undo run whose rendering
    throws, and it leaves the remote state as it was. *)
Theorem run_leaves_label_iff_detected (v : version) (site : Site) (w : Remote) :
  match runOf v remote (payload site w) (w, []) with
  | (Normal _, (w1, _)) =>
      onPullRequest labelName w1 = detected (addedMigrations (r_files w)) /\
      computedBodyOf v (payload site w) (addedMigrations (r_files w))
        = Normal (bodyOf w1) /\
      r_files w1 = r_files w
  | (Throw e, (w1, _)) =>
      v = Paired /\ w1 = w /\
      DoUndo.formatMigrations (payload site w) (addedMigrations (r_files w))
        = Throw e
  end.
Proof.
  rewrite run_remote.
  destruct (computedBodyOf v (payload site w) (addedMigrations (r_files w)))
    as [new|e] eqn:C.
  - rewrite updateBody_remote.
    assert (Step : forall wu log,
      r_files wu = r_files w -> r_labels wu = r_labels w -> bodyOf wu = new ->
      match reconcileLabels remote (addedMigrations (r_files w))
              (pull_request (payload site w)) (wu, log) with
      | (Normal _, (w1, _)) =>
          onPullRequest labelName w1 = detected (addedMigrations (r_files w)) /\
          Normal new = Normal (bodyOf w1) /\ r_files w1 = r_files w
      | (Throw e, (w1, _)) =>
          v = Paired /\ w1 = w /\
          DoUndo.formatMigrations (payload site w) (addedMigrations (r_files w))
            = Throw e
      end).
    { intros wu log Hf Hl Hb.
      destruct (reconcileLabels_remote (addedMigrations (r_files w))
                  (pull_request (payload site w)) wu log (eq_sym Hl))
        as (w1 & log1 & E & Hf1 & Hb1 & Hp1 & _).
      rewrite E. repeat split; [exact Hp1 | | congruence].
      f_equal. unfold bodyOf in *. now rewrite Hb1. }
    destruct (str_eqb (bodyOf w) new) eqn:Q; cbn [snd].
    + apply str_eqb_eq in Q. now apply Step.
    + now apply Step.
  - destruct v; cbn [computedBodyOf] in C; [discriminate|].
    repeat split. unfold DoUndo.computedBody in C.
    now destruct (DoUndo.formatMigrations _ _).
Qed.

(** ** The flat list, line by line *)

Lemma split_no_sep (sep : N) (a : str) : ~ In sep a -> split sep a = [a].
Proof.
  induction a as [|c a IH]; intros Ha; [reflexivity|]. cbn [split].
  assert (E : N.eqb c sep = false).
  { apply N.eqb_neq. intros ->. apply Ha. now left. }
  rewrite E, IH; [reflexivity|]. intros H. apply Ha. now right.
Qed.

Lemma split_join (sep : N) (l : list str) :
  l <> [] -> (forall x, In x l -> ~ In sep x) ->
  split sep (join [sep] l) = l.
Proof.
  induction l as [|a l IH]; intros Hne Hl; [now contradiction Hne|].
  destruct l as [|b l].
  - cbn [join]. apply split_no_sep, Hl. now left.
  - change (join [sep] (a :: b :: l)) with (a ++ sep :: join [sep] (b :: l)).
    rewrite split_at_sep by (apply Hl; now left).
    rewrite IH; [reflexivity | discriminate |].
    intros x Hx. apply Hl. now right.
Qed.

Lemma basename_in_path (path : str) (x : N) :
  In x (basename path) -> In x path.
Proof.
  destruct (split_parts 47%N path) as (ws & w & E & Es & _).
  unfold basename. rewrite E, last_last. intros H. rewrite Es.
  apply in_or_app. now right.
Qed.

(** X17: when a migration file is detected and neither the owner, the
    repository, the head commit nor a file name holds a line feed, the
    rendered list has exactly one line per detected file, in the order of
    the listing: the bullet with the base name linked to the blob URL. *)
Theorem flat_list_one_line_per_file (ctx : Context) (files : list FileChange) :
  addedMigrations files <> [] ->
  ~ In NL (owner ctx) -> ~ In NL (repo ctx) ->
  ~ In NL (head_sha (pull_request ctx)) ->
  (forall f, In f (addedMigrations files) -> ~ In NL (filename f)) ->
  split NL (FlatList.lines ctx (addedMigrations files))
  = map (bulletOf ctx) (addedMigrations files).
Proof.
  intros Hne Ho Hr Hs Hf. unfold FlatList.lines.
  change (fun f => lit "- [" ++ basename (filename f) ++ lit "]("
                     ++ FlatList.url ctx f ++ lit ")") with (bulletOf ctx).
  apply split_join.
  - destruct (addedMigrations files); [now contradiction Hne | discriminate].
  - intros x Hx. apply in_map_iff in Hx as (f & <- & Hin).
    specialize (Hf f Hin). unfold bulletOf, FlatList.url.
    rewrite !in_app_iff.
    assert (L : forall s, existsb (N.eqb NL) (lit s) = false -> ~ In NL (lit s))
      by (intros s; apply not_In_by_existsb).
    intros [H|[H|[H|[[H|[H|[H|[H|[H|[H|[H|H]]]]]]]|H]]]];
      try (revert H; apply L; reflexivity); auto.
    now apply basename_in_path in H.
Qed.

Lemma flat_list_one_line_per_file_witness :
  split NL (FlatList.lines (ctx_plain None) [do_add_col; undo_add_col])
  = [bulletOf (ctx_plain None) do_add_col; bulletOf (ctx_plain None) undo_add_col].
Proof.
  refine (flat_list_one_line_per_file (ctx_plain None)
            [do_add_col; undo_add_col] _ _ _ _ _).
  - discriminate.
  - apply not_In_by_existsb. reflexivity.
  - apply not_In_by_existsb. reflexivity.
  - apply not_In_by_existsb. reflexivity.
  - intros f H. vm_compute in H. destruct H as [<-|[<-|[]]];
      apply not_In_by_existsb; reflexivity.
Defined.
